(** * carbon-agent: the ESG document store and its analytics

A shallow embedding of the ingestion, retrieval and aggregation code of
the repository (vectorstore/chromaManager.js, agents/tools/esgAnalyzer.js,
agents/tools/marketAnalyzer.js) together with the properties the
specification states about it.

Conventions of the embedding.
- A JavaScript number is a value of [num]: a rational, the exact value
  of the number, or one of [PInf], [NInf], [NaN].  The arithmetic whose
  digits the code prints (the trends and the sector average) rounds every
  result to the nearest binary64 number, ties to even ([round64]); where
  only the sign or the order of one difference is used (the similarity
  of a hit, the comparison function of a sort) the difference is kept
  exact.  The sign of zero is not represented; every operation that can
  leave the finite numbers (division by zero, overflow, arithmetic on NaN)
  is.
- The primitives of the JavaScript runtime that turn numbers into strings
  and strings into numbers are the fields of the class [Runtime]; the
  development holds for every runtime.
- An object used as a dictionary is an association list in insertion
  order ([Obj]); only own properties are represented.
- Remote calls are functions on the state of the remote store; awaited
  code is sequenced in the monad [M]. *)

From Stdlib Require Import QArith Qround Qabs Lqa.
From Stdlib Require Import Ascii String DecimalString.
From Stdlib Require Import Sorting.Sorted Sorting.Permutation.
From stdpp Require Import base list strings gmap fin_maps.

Local Open Scope string_scope.
Local Open Scope list_scope.
Set Warnings "-register-all".

(** ** Numbers *)

Inductive num : Type :=
| Fin (q : Q)
| PInf
| NInf
| NaN.

Definition num_of_nat (n : nat) : num := Fin (inject_Z (Z.of_nat n)).

Definition is_nan (x : num) : bool :=
  match x with NaN => true | _ => false end.

(** The sum, the difference, the product and the quotient before they
    are rounded: exact on the finite numbers, as IEEE 754 has them on the
    others. *)
Definition num_add (x y : num) : num :=
  match x, y with
  | NaN, _ | _, NaN => NaN
  | Fin a, Fin b => Fin (a + b)
  | PInf, NInf | NInf, PInf => NaN
  | PInf, _ | _, PInf => PInf
  | NInf, _ | _, NInf => NInf
  end.

Definition num_sub (x y : num) : num :=
  match x, y with
  | NaN, _ | _, NaN => NaN
  | Fin a, Fin b => Fin (a - b)
  | PInf, PInf | NInf, NInf => NaN
  | PInf, _ | _, NInf => PInf
  | NInf, _ | _, PInf => NInf
  end.

(** Sign of a finite number as the sign of its numerator. *)
Definition Qsgn (q : Q) : Z := Z.sgn (Qnum q).

Definition inf_of_sign (s : Z) : num :=
  if (s <? 0)%Z then NInf else PInf.

Definition num_mul (x y : num) : num :=
  match x, y with
  | NaN, _ | _, NaN => NaN
  | Fin a, Fin b => Fin (a * b)
  | Fin a, i | i, Fin a =>
      if (Qsgn a =? 0)%Z then NaN
      else inf_of_sign (Qsgn a * match i with NInf => -1 | _ => 1 end)
  | PInf, PInf | NInf, NInf => PInf
  | PInf, NInf | NInf, PInf => NInf
  end.

(** The quotient before it is rounded; a finite non-zero number over
    zero is an infinity of the sign of the dividend, zero over zero is
    NaN. *)
Definition num_div (x y : num) : num :=
  match x, y with
  | NaN, _ | _, NaN => NaN
  | Fin a, Fin b =>
      if (Qsgn b =? 0)%Z
      then (if (Qsgn a =? 0)%Z then NaN else inf_of_sign (Qsgn a))
      else Fin (a / b)
  | Fin _, _ => Fin 0
  | i, Fin b =>
      inf_of_sign (match i with NInf => -1 | _ => 1 end
                   * (if (Qsgn b <? 0)%Z then -1 else 1))
  | _, _ => NaN
  end.

(** *** Rounding to binary64

    A finite binary64 number is a multiple of [2^-1074] with at most 53
    significant bits, below [2^1024] in magnitude. *)

(** [2^1074], the number of steps of the finest grid in one unit. *)
Definition grid : Z := (2 ^ 1074)%Z.

(** The integer nearest to [x >= 0], the even one on a tie. *)
Definition nearest_even (x : Q) : Z :=
  let fl := Qfloor x in
  match Qcompare (x - inject_Z fl)%Q (1 # 2)%Q with
  | Lt => fl
  | Gt => (fl + 1)%Z
  | Eq => if Z.even fl then fl else (fl + 1)%Z
  end.

(** The binary64 number nearest to [a > 0], [PInf] from [2^1024 - 2^970]
    on.  [a] is measured in steps of [2^-1074]: below [2^53] steps every
    step is a number (the subnormal numbers and the first binade); above,
    the numbers are [2^s] steps apart, for the [s] that leaves 53
    significant bits. *)
Definition round64_pos (a : Q) : num :=
  let steps := (a * inject_Z grid)%Q in
  let t := Qfloor steps in
  let s := if (t <? 2 ^ 53)%Z then 0%Z else (Z.log2 t - 52)%Z in
  let m := nearest_even (steps / inject_Z (2 ^ s))%Q in
  let k := (m * 2 ^ s)%Z in
  if (2 ^ 2098 <=? k)%Z then PInf else Fin (Qred (k # Z.to_pos grid)).

Definition num_neg (x : num) : num :=
  match x with
  | Fin q => Fin (- q)%Q
  | PInf => NInf
  | NInf => PInf
  | NaN => NaN
  end.

(** Round to nearest, ties to even. *)
Definition round64 (q : Q) : num :=
  match Qcompare q 0%Q with
  | Eq => Fin 0
  | Gt => round64_pos q
  | Lt => num_neg (round64_pos (- q)%Q)
  end.

Definition rounded (x : num) : num :=
  match x with Fin q => round64 q | _ => x end.

(** [x + y], [x - y], [x * y] and [x / y] of JavaScript on numbers. *)
Definition f64_add (x y : num) : num := rounded (num_add x y).
Definition f64_sub (x y : num) : num := rounded (num_sub x y).
Definition f64_mul (x y : num) : num := rounded (num_mul x y).
Definition f64_div (x y : num) : num := rounded (num_div x y).

(** [q] is the value of a binary64 number: rounding leaves it as it is. *)
Definition is_double (q : Q) : bool :=
  match round64 q with
  | Fin r => Qeq_bool r q
  | _ => false
  end.

(** [x < y] of JavaScript on numbers: false as soon as one side is NaN. *)
Definition num_lt (x y : num) : bool :=
  match x, y with
  | NaN, _ | _, NaN => false
  | Fin a, Fin b => negb (Qle_bool b a)
  | NInf, NInf | PInf, _ => false
  | NInf, _ => true
  | Fin _, PInf => true
  | Fin _, NInf => false
  end.

Definition num_gt (x y : num) : bool := num_lt y x.

(** ** Values *)

Inductive jsval : Type :=
| JUndefined
| JNull
| JBool (b : bool)
| JNum (n : num)
| JStr (s : string).

(** [values.reduce((a, b) => a + b, 0) / values.length] on numbers: the
    sum is rounded after every addition, and so is the quotient. *)
Definition js_mean (values : list num) : num :=
  f64_div (fold_left f64_add values (Fin 0)) (num_of_nat (length values)).

(** An array of number values. *)
Definition numbers (qs : list Q) : list jsval :=
  map (fun q => JNum (Fin q)) qs.

(** The primitives of the language runtime the code relies on. *)
Class Runtime : Type := {
  (** Number::toString on a finite number *)
  number_to_string : Q -> string;
  (** StringToNumber, used by the arithmetic operators on a string *)
  string_to_number : string -> num;
  (** parseFloat on a string *)
  parse_float_string : string -> num;
  (** String.prototype.toUpperCase *)
  to_upper_case : string -> string
}.

Definition string_is_empty (s : string) : bool :=
  match s with EmptyString => true | String _ _ => false end.

(** ToBoolean *)
Definition truthy (v : jsval) : bool :=
  match v with
  | JUndefined | JNull => false
  | JBool b => b
  | JNum (Fin q) => negb (Qsgn q =? 0)%Z
  | JNum NaN => false
  | JNum _ => true
  | JStr s => negb (string_is_empty s)
  end.

(** [a || b] *)
Definition js_or (a b : jsval) : jsval := if truthy a then a else b.

Definition is_nullish (v : jsval) : bool :=
  match v with JUndefined | JNull => true | _ => false end.

Section WithRuntime.
Context {RT : Runtime}.

Definition num_to_string (x : num) : string :=
  match x with
  | Fin q => number_to_string q
  | PInf => "Infinity"
  | NInf => "-Infinity"
  | NaN => "NaN"
  end.

(** ToString, as applied by a template literal *)
Definition to_string (v : jsval) : string :=
  match v with
  | JUndefined => "undefined"
  | JNull => "null"
  | JBool true => "true"
  | JBool false => "false"
  | JNum x => num_to_string x
  | JStr s => s
  end.

(** ToNumber *)
Definition to_number (v : jsval) : num :=
  match v with
  | JUndefined => NaN
  | JNull => Fin 0
  | JBool true => Fin 1
  | JBool false => Fin 0
  | JNum x => x
  | JStr s => string_to_number s
  end.

(** [a - b] and [a / b] convert both sides to numbers. *)
Definition js_sub (a b : jsval) : num := f64_sub (to_number a) (to_number b).
Definition js_div (a b : jsval) : num := f64_div (to_number a) (to_number b).

(** [a + b] concatenates as soon as one side is a string. *)
Definition js_add (a b : jsval) : jsval :=
  match a, b with
  | JStr _, _ | _, JStr _ => JStr (to_string a +:+ to_string b)
  | _, _ => JNum (f64_add (to_number a) (to_number b))
  end.

(** [a < n] for a number [n]: the left side is converted to a number
    (a string against a number is compared numerically). *)
Definition js_lt_num (a : jsval) (n : num) : bool := num_lt (to_number a) n.

(** parseFloat: the argument is converted to a string and its longest
    numeric prefix is read; a number reads back as itself. *)
Definition parseFloat (v : jsval) : num :=
  match v with
  | JNum x => x
  | JStr s => parse_float_string s
  | JUndefined | JNull | JBool _ => NaN
  end.

(** *** Number.prototype.toFixed(2) *)

Definition decimal_of_Z (z : Z) : string :=
  NilEmpty.string_of_uint (N.to_uint (Z.to_N z)).

Fixpoint zeros (n : nat) : string :=
  match n with O => "" | S n => String "0"%char (zeros n) end.

Fixpoint take_string (n : nat) (s : string) : string :=
  match n, s with
  | S n, String c s => String c (take_string n s)
  | _, _ => ""
  end.

Fixpoint drop_string (n : nat) (s : string) : string :=
  match n, s with
  | S n, String _ s => drop_string n s
  | _, _ => s
  end.

(** The integer [n] for which [n / 100 - x] is closest to zero, the larger
    one on a tie, for [x >= 0]. *)
Definition nearest_hundredth (x : Q) : Z := Qfloor (x * 100 + (1 # 2)).

Definition fixed2_digits (n : Z) : string :=
  let m := decimal_of_Z n in
  let m := if (String.length m <=? 2)%nat
           then zeros (3 - String.length m) +:+ m else m in
  let k := String.length m in
  take_string (k - 2) m +:+ "." +:+ drop_string (k - 2) m.

(** [x.toFixed(2)]: the sign, then the digits of the magnitude, in
    exponent-free fixed notation below 10^21 and as ToString above. *)
Definition toFixed2 (x : num) : string :=
  match x with
  | NaN => "NaN"
  | PInf => "Infinity"
  | NInf => "-Infinity"
  | Fin q =>
      let s := if negb (Qle_bool 0 q) then "-" else "" in
      let x := Qabs q in
      let m := if Qle_bool (10 ^ 21) x then number_to_string x
               else fixed2_digits (nearest_hundredth x) in
      s +:+ m
  end.

End WithRuntime.

(** ** A runtime to run the examples

Exact on the inputs of the examples of this development: numbers with a
finite decimal expansion print as JavaScript prints them, plain decimal
literals are read back, parseFloat reads Infinity, ASCII letters are
upper-cased.  Exponents and hexadecimal literals are not read. *)

Module ExampleRuntime.

Fixpoint fraction_digits (fuel : nat) (r d : Z) : string :=
  match fuel with
  | O => ""
  | S fuel' =>
      if (r =? 0)%Z then ""
      else decimal_of_Z (r * 10 / d)
           +:+ fraction_digits fuel' ((r * 10) mod d) d
  end.

Definition number_to_string (q : Q) : string :=
  let n := Z.abs (Qnum q) in
  let d := Z.pos (Qden q) in
  let frac := fraction_digits 20 (n mod d) d in
  (if (Qnum q <? 0)%Z then "-" else "")
  +:+ decimal_of_Z (n / d)
  +:+ (if string_is_empty frac then "" else "." +:+ frac).

Definition digit_of (c : ascii) : option Z :=
  let n := nat_of_ascii c in
  if ((48 <=? n) && (n <=? 57))%nat then Some (Z.of_nat (n - 48)) else None.

(** Reads a run of digits: its value after [acc], its length, the rest. *)
Fixpoint read_digits (s : string) (acc : Z) (n : nat) : Z * nat * string :=
  match s with
  | String c s' =>
      match digit_of c with
      | Some d => read_digits s' (acc * 10 + d) (S n)
      | None => (acc, n, s)
      end
  | EmptyString => (acc, n, s)
  end.

Definition is_space (c : ascii) : bool :=
  let n := nat_of_ascii c in
  ((n =? 32) || ((9 <=? n) && (n <=? 13)))%nat.

Fixpoint trim_start (s : string) : string :=
  match s with
  | String c s' => if is_space c then trim_start s' else s
  | EmptyString => s
  end.

Fixpoint all_space (s : string) : bool :=
  match s with
  | String c s' => is_space c && all_space s'
  | EmptyString => true
  end.

(** The longest prefix that is a decimal literal, and what follows. *)
Definition read_decimal (s : string) : option (Q * string) :=
  let '(neg, s1) :=
    match s with
    | String "-" s' => (true, s')
    | String "+" s' => (false, s')
    | _ => (false, s)
    end in
  let '(int, n1, s2) := read_digits s1 0 0 in
  let '(frac, n2, s3) :=
    match s2 with
    | String "." s' => read_digits s' 0 0
    | _ => (0%Z, 0%nat, s2)
    end in
  if ((n1 + n2)%nat =? 0)%nat then None
  else
    let den := (10 ^ Z.of_nat n2)%Z in
    let q := Qred ((int * den + frac) # Z.to_pos den) in
    Some (if neg then (- q)%Q else q,
          match s2 with
          | String "." _ => s3
          | _ => s2
          end).

Definition read_infinity (s : string) : option num :=
  if String.prefix "Infinity" s || String.prefix "+Infinity" s
  then Some PInf
  else if String.prefix "-Infinity" s then Some NInf else None.

Definition parse_float_string (s : string) : num :=
  match read_infinity (trim_start s) with
  | Some x => x
  | None =>
      match read_decimal (trim_start s) with
      | Some (q, _) => Fin q
      | None => NaN
      end
  end.

Definition string_to_number (s : string) : num :=
  if all_space s then Fin 0
  else match read_decimal (trim_start s) with
       | Some (q, rest) => if all_space rest then Fin q else NaN
       | None => NaN
       end.

Definition upper_ascii (c : ascii) : ascii :=
  let n := nat_of_ascii c in
  if ((97 <=? n) && (n <=? 122))%nat then ascii_of_nat (n - 32) else c.

Fixpoint to_upper_case (s : string) : string :=
  match s with
  | String c s' => String (upper_ascii c) (to_upper_case s')
  | EmptyString => EmptyString
  end.

Definition runtime : Runtime :=
  Build_Runtime number_to_string string_to_number parse_float_string
                to_upper_case.

End ExampleRuntime.

(** ** Objects, arrays and raised errors *)

(** An object used as a dictionary: its own properties in insertion order.
    Assigning an existing key keeps the key's position. *)
Module Obj.
Definition t (V : Type) : Type := list (string * V).

Definition empty {V} : t V := [].

Fixpoint get {V} (k : string) (o : t V) : option V :=
  match o with
  | [] => None
  | (k', v) :: o => if String.eqb k k' then Some v else get k o
  end.

Fixpoint set {V} (k : string) (v : V) (o : t V) : t V :=
  match o with
  | [] => [(k, v)]
  | (k', v') :: o =>
      if String.eqb k k' then (k', v) :: o else (k', v') :: set k v o
  end.

(** Object.values, Object.keys *)
Definition values {V} (o : t V) : list V := map snd o.
Definition keys {V} (o : t V) : list string := map fst o.
End Obj.

(** A metadata record: property name to scalar value. *)
Definition Metadata : Type := Obj.t jsval.

(** [m[k]] and [m.k]: a missing property reads as undefined. *)
Definition prop (m : Metadata) (k : string) : jsval :=
  match Obj.get k m with Some v => v | None => JUndefined end.

(** [l[i]] for an integer index, undefined (here [None]) out of range. *)
Definition js_at {A} (l : list A) (i : Z) : option A :=
  if (i <? 0)%Z then None else l !! Z.to_nat i.

(** A raised Error object. *)
Record JsError : Type := mkError { err_name : string; message : string }.

Inductive outcome (A : Type) : Type :=
| Ok (a : A)
| Throw (e : JsError).
Arguments Ok {A} a.
Arguments Throw {A} e.

Definition TypeError (msg : string) : JsError := mkError "TypeError" msg.
Definition Error (msg : string) : JsError := mkError "Error" msg.

(** String.prototype.includes *)
Fixpoint includes (needle hay : string) : bool :=
  String.prefix needle hay
  || match hay with
     | EmptyString => false
     | String _ hay' => includes needle hay'
     end.

(** Array.prototype.sort with a comparison function returning a number: a
    stable sort in which [x] is placed after [y] when [cmp x y > 0] (a NaN
    result counts as zero).  Written as a stable insertion sort. *)
Section Sort.
Context {A : Type} (cmp : A -> A -> num).

Fixpoint sort_insert (x : A) (l : list A) : list A :=
  match l with
  | [] => [x]
  | y :: l' => if num_gt (cmp x y) (Fin 0) then y :: sort_insert x l'
               else x :: l
  end.

Fixpoint js_sort (l : list A) : list A :=
  match l with
  | [] => []
  | x :: l' => sort_insert x (js_sort l')
  end.
End Sort.

(** Sorting by a numeric key, largest first. *)
Section ByKey.
Context {A : Type} (key : A -> num).

(** The comparison function [(a, b) => key(b) - key(a)].  The sort uses
    the sign of the result only, and rounding leaves the sign of a
    difference of two numbers as it is, so the difference is kept
    exact. *)
Definition descending (a b : A) : num := num_sub (key b) (key a).

(** [a] may stand before [b]: its key is not the smaller one. *)
Definition not_below (a b : A) : Prop := num_lt (key a) (key b) = false.

Definition keyed (l : list A) : Prop :=
  Forall (fun x => is_nan (key x) = false) l.

End ByKey.

(** Array.prototype.slice(0, n) *)
Definition slice0 {A} (n : nat) (l : list A) : list A := firstn n l.

(** One element of the [results] array built by searchSimilar.  A field
    read past the end of the store's arrays is undefined: [None]. *)
Record SearchHit : Type := mkHit {
  document : option string;
  metadata : option Metadata;
  distance : option Q;
  similarity : num
}.

(** ** agents/tools/esgAnalyzer.js *)

Module ESGAnalyzerTool.
Section WithRuntime.
Context {RT : Runtime}.

Record Trend : Type := mkTrend {
  current : jsval;
  change : string;
  changePercent : string;
  trend : string;
  average : string
}.

(** The body of the [if (values.length > 1)] branch of calculateTrends. *)
Definition trend_entry (values : list jsval) : option Trend :=
  if (1 <? length values)%nat then
    match js_at values 0, js_at values (Z.of_nat (length values) - 1) with
    | Some firstValue, Some lastValue =>
        let change := js_sub lastValue firstValue in
        let changePercent :=
          f64_mul (f64_div change (to_number firstValue)) (Fin 100) in
        Some {|
          current := lastValue;
          change := toFixed2 change;
          changePercent := toFixed2 changePercent;
          trend := if num_gt change (Fin 0) then "yükseliş"
                   else if num_lt change (Fin 0) then "düşüş"
                   else "sabit";
          average :=
            toFixed2 (js_div (fold_left js_add values (JNum (Fin 0)))
                             (JNum (num_of_nat (length values))))
        |}
    | _, _ => None
    end
  else None.

Definition metric_values (data : list Metadata) (metric : string)
  : list jsval :=
  List.filter (fun v => negb (is_nullish v))
              (map (fun d => prop d metric) data).

Definition calculateTrends (data : list Metadata) (metrics : list string)
  : Obj.t Trend :=
  fold_left
    (fun trends metric =>
       match trend_entry (metric_values data metric) with
       | Some t => Obj.set metric t trends
       | None => trends
       end)
    metrics Obj.empty.

Record Risk : Type := mkRisk {
  type : string;
  level : string;
  description : string
}.

Record RiskAssessment : Type := mkRiskAssessment {
  riskLevel : string;
  risks : list Risk;
  totalRiskCount : nat
}.

(** [data[data.length - 1] || data[0]]; a metadata object is truthy. *)
Definition latest (data : list Metadata) : option Metadata :=
  match js_at data (Z.of_nat (length data) - 1) with
  | Some d => Some d
  | None => js_at data 0
  end.

(** [latestData?.k] *)
Definition opt_prop (d : option Metadata) (k : string) : jsval :=
  match d with Some m => prop m k | None => JUndefined end.

Definition assessRisks (data : list Metadata) : RiskAssessment :=
  let latestData := latest data in
  let risks := [] in
  let risks :=
    if js_lt_num (opt_prop latestData "environment_score") (Fin 40)
    then risks ++ [mkRisk "Çevresel Risk" "Yüksek"
                          "Düşük çevresel performans skoru"]
    else risks in
  let risks :=
    if js_lt_num (opt_prop latestData "social_score") (Fin 40)
    then risks ++ [mkRisk "Sosyal Risk" "Yüksek"
                          "Düşük sosyal sorumluluk skoru"]
    else risks in
  let risks :=
    if js_lt_num (opt_prop latestData "governance_score") (Fin 40)
    then risks ++ [mkRisk "Yönetişim Riski" "Yüksek"
                          "Düşük kurumsal yönetim skoru"]
    else risks in
  {| riskLevel := if (2 <? length risks)%nat then "Yüksek"
                  else if (0 <? length risks)%nat then "Orta"
                  else "Düşük";
     risks := risks;
     totalRiskCount := length risks |}.

(** The three risks assessRisks can flag. *)
Definition env_risk : Risk :=
  mkRisk "Çevresel Risk" "Yüksek" "Düşük çevresel performans skoru".
Definition soc_risk : Risk :=
  mkRisk "Sosyal Risk" "Yüksek" "Düşük sosyal sorumluluk skoru".
Definition gov_risk : Risk :=
  mkRisk "Yönetişim Riski" "Yüksek" "Düşük kurumsal yönetim skoru".

Definition flag (b : bool) (r : Risk) : list Risk := if b then [r] else [].

Definition below40 (d : option Metadata) (k : string) : bool :=
  js_lt_num (opt_prop d k) (Fin 40).

(** The record of the specification's example. *)
Definition example_record : Metadata :=
  [ ("environment_score", JNum (Fin 30));
    ("social_score", JNum (Fin 80));
    ("governance_score", JNum (Fin 80)) ].

(** What the loop body leaves under [metric]. *)
Definition trend_step (data : list Metadata) (trends : Obj.t Trend)
  (metric : string) : Obj.t Trend :=
  match trend_entry (metric_values data metric) with
  | Some t => Obj.set metric t trends
  | None => trends
  end.

Definition one_metric (k : string) (v : Q) : Metadata := [(k, JNum (Fin v))].

End WithRuntime.
End ESGAnalyzerTool.

(** ** agents/tools/marketAnalyzer.js *)

Module MarketAnalyzerTool.
Section WithRuntime.
Context {RT : Runtime}.

Record Performer : Type := mkPerformer {
  company : jsval;
  score : num;
  sector : jsval
}.

Record SectorAnalysis : Type := mkSectorAnalysis {
  averageScore : string;
  topPerformers : list Performer;
  recommendations : list string;
  totalCompanies : nat
}.

Definition generateRecommendations (averageScore : num) (metric : string)
  : list string :=
  let recommendations := [] in
  let recommendations :=
    if String.eqb metric "environment_score" then
      if num_lt averageScore (Fin 50) then
        recommendations ++ ["Sektörde çevresel performans düşük. Karbon azaltma stratejileri öncelikli olmalı."]
      else if num_lt averageScore (Fin 70) then
        recommendations ++ ["Çevresel performans orta seviyede. Yenilenebilir enerji geçişi hızlandırılmalı."]
      else
        recommendations ++ ["Çevresel performans yüksek. Sürdürülebilirlik liderliği için daha da geliştirilebilir."]
    else recommendations in
  let recommendations :=
    if String.eqb metric "social_score" then
      if num_lt averageScore (Fin 50) then
        recommendations ++ ["Sosyal sorumluluk skorları düşük. Çalışan hakları ve toplumsal katkı artırılmalı."]
      else if num_lt averageScore (Fin 70) then
        recommendations ++ ["Sosyal performans orta seviyede. Paydaş ilişkileri güçlendirilmeli."]
      else
        recommendations ++ ["Sosyal performans yüksek. Toplumsal etki projeleri genişletilebilir."]
    else recommendations in
  recommendations.

(** [r.metadata] of every hit, in order; reading a property of a missing
    metadata raises a TypeError at the first such hit, which is where
    the first [map] of analyzeSectorMetrics stops. *)
Fixpoint metadata_of_all (results : list SearchHit)
  : outcome (list Metadata) :=
  match results with
  | [] => Ok []
  | r :: rest =>
      match metadata r with
      | None => Throw (TypeError "Cannot read properties of undefined")
      | Some m =>
          match metadata_of_all rest with
          | Ok ms => Ok (m :: ms)
          | Throw e => Throw e
          end
      end
  end.

Definition metric_score (metric : string) (m : Metadata) : num :=
  parseFloat (prop m metric).

(** analyzeSectorMetrics on the metadata of the hits.  The comparison
    function of the sort is [descending] on the parsed metric. *)
Definition analyze (ms : list Metadata) (metric : string)
  : SectorAnalysis :=
  let scores :=
    List.filter (fun score => negb (is_nan score))
                (map (metric_score metric) ms) in
  let averageScore :=
    if (0 <? length scores)%nat
    then f64_div (fold_left f64_add scores (Fin 0))
                 (num_of_nat (length scores))
    else Fin 0 in
  let topPerformers :=
    map (fun m => {| company := prop m "company_name";
                     score := metric_score metric m;
                     sector := prop m "sector" |})
        (slice0 10
           (js_sort (fun a b => num_sub (metric_score metric b)
                                        (metric_score metric a))
              (List.filter
                 (fun m => negb (is_nan (metric_score metric m))) ms))) in
  let recommendations := generateRecommendations averageScore metric in
  {| averageScore := toFixed2 averageScore;
     topPerformers := topPerformers;
     recommendations := recommendations;
     totalCompanies := length scores |}.

Definition analyzeSectorMetrics (results : list SearchHit)
  (metric : string) : outcome SectorAnalysis :=
  match metadata_of_all results with
  | Ok ms => Ok (analyze ms metric)
  | Throw e => Throw e
  end.

(** The metric values that parse as a number, in the order of the hits. *)
Definition numeric_scores (metric : string) (ms : list Metadata) : list num :=
  List.filter (fun x => negb (is_nan x)) (map (metric_score metric) ms).

Definition has_score (metric : string) (m : Metadata) : bool :=
  negb (is_nan (metric_score metric m)).

Definition ranked (metric : string) (ms : list Metadata) : list Metadata :=
  js_sort (descending (metric_score metric))
          (List.filter (has_score metric) ms).

Definition scored (v : Q) : SearchHit :=
  mkHit None (Some [("environment_score", JNum (Fin v))]) None NaN.

Definition performer (v : Q) : Performer :=
  {| company := JUndefined; score := Fin v; sector := JUndefined |}.

End WithRuntime.
End MarketAnalyzerTool.

(** ** vectorstore/chromaManager.js *)

(** A metadata filter as the search functions build it. *)
Inductive Where : Type :=
| WAll
| WEq (field : string) (v : jsval)
| WContains (field : string) (v : jsval)
| WOr (clauses : list Where).

(** The answer of [collection.query]: one inner array per query text. *)
Module QueryResponse.
Record t : Type := mk {
  documents : list (list (option string));
  metadatas : list (list (option Metadata));
  distances : list (list Q)
}.
End QueryResponse.

(** The argument of [collection.query]; [include] is constant. *)
Module QueryRequest.
Record t : Type := mk {
  queryTexts : list string;
  nResults : nat;
  where_ : Where
}.
End QueryRequest.

(** The argument of [collection.add]: three parallel arrays. *)
Module AddRequest.
Record t : Type := mk {
  documents : list string;
  metadatas : list Metadata;
  ids : list string
}.
End AddRequest.

(** A parsed CSV row: column name to cell. *)
Definition ESGRecord : Type := Obj.t jsval.

(** An element of the array [listCollections] answers with; [name] is
    [None] when the element carries no such property. *)
Record Listed : Type := mkListed { name : option string }.

(** The calls made on the client and on a collection handle. *)
Inductive Call : Type :=
| CallList
| CallCreate (n : string)
| CallGet (n : string)
| CallDelete (n : string)
| CallAdd (ids : list string)
| CallQuery (q : string)
| CallGetDocs.

Module ChromaManager.

(** The fields of a manager; [H] is the type of collection handles. *)
Record t (H : Type) : Type := mk {
  path : string;
  collectionName : string;
  isReady : bool;
  client : option string;
  collection : option H;
  embeddings : option string
}.
Arguments mk {H}.
Arguments path {H}.
Arguments collectionName {H}.
Arguments isReady {H}.
Arguments client {H}.
Arguments collection {H}.
Arguments embeddings {H}.

(** The manager, the remote store and the calls made so far. *)
Record St (R H : Type) : Type := mkSt {
  this : t H;
  remote : R;
  calls : list Call
}.
Arguments mkSt {R H}.
Arguments this {R H}.
Arguments remote {R H}.
Arguments calls {R H}.

(** The client object: each method acts on the remote store and either
    answers or raises. *)
Record Client (R H : Type) : Type := mkClient {
  listCollections : R -> outcome (list Listed) * R;
  createCollection : string -> R -> outcome (option H) * R;
  getCollection : string -> R -> outcome (option H) * R;
  deleteCollection : string -> R -> outcome unit * R
}.
Arguments listCollections {R H}.
Arguments createCollection {R H}.
Arguments getCollection {R H}.
Arguments deleteCollection {R H}.

Section Monad.
Context {R H : Type}.

Definition M (A : Type) : Type := St R H -> outcome A * St R H.

Definition ret {A} (a : A) : M A := fun st => (Ok a, st).

Definition bind {A B} (m : M A) (k : A -> M B) : M B :=
  fun st =>
    match m st with
    | (Ok a, st') => k a st'
    | (Throw e, st') => (Throw e, st')
    end.

Definition throw {A} (e : JsError) : M A := fun st => (Throw e, st).

(** [try { m } catch (e) { handler e }] *)
Definition try_catch {A} (m : M A) (handler : JsError -> M A) : M A :=
  fun st =>
    match m st with
    | (Ok a, st') => (Ok a, st')
    | (Throw e, st') => handler e st'
    end.

(** An awaited call on the remote store, recorded in [calls]. *)
Definition remote_call {A} (c : Call) (op : R -> outcome A * R) : M A :=
  fun st =>
    let (o, r) := op (remote st) in
    (o, mkSt (this st) r (calls st ++ [c])).

Definition get_this : M (t H) := fun st => (Ok (this st), st).

Definition set_this (f : t H -> t H) : M unit :=
  fun st => (Ok tt, mkSt (f (this st)) (remote st) (calls st)).
End Monad.

#[export] Instance M_ret {R H} : MRet (@M R H) := fun A a => ret a.
#[export] Instance M_bind {R H} : MBind (@M R H) :=
  fun A B k m => bind m k.

Definition set_collection {H} (h : option H) (m : t H) : t H :=
  mk (path m) (collectionName m) (isReady m) (client m) h (embeddings m).
Definition set_isReady {H} (b : bool) (m : t H) : t H :=
  mk (path m) (collectionName m) b (client m) (collection m) (embeddings m).
Definition set_client {H} (c : option string) (m : t H) : t H :=
  mk (path m) (collectionName m) (isReady m) c (collection m) (embeddings m).
Definition set_embeddings {H} (e : option string) (m : t H) : t H :=
  mk (path m) (collectionName m) (isReady m) (client m) (collection m) e.

(** [new ChromaManager(options)] with the environment variable unset. *)
Definition constructor {H} (opt_path opt_collectionName opt_client
                            : option string) : t H :=
  {| path := match opt_path with
             | Some p => if string_is_empty p then "http://localhost:8000"
                         else p
             | None => "http://localhost:8000"
             end;
     collectionName := match opt_collectionName with
                       | Some n => if string_is_empty n then "esg_documents"
                                   else n
                       | None => "esg_documents"
                       end;
     isReady := false;
     client := opt_client;
     collection := None;
     embeddings := None |}.

Section Lifecycle.
Context {R H : Type} (cl : Client R H).

Definition already_exists (e : JsError) : bool :=
  includes "already exists" (message e)
  || includes "resource already exists" (message e).

Definition is_named (n : string) (c : Listed) : bool :=
  match name c with Some s => String.eqb s n | None => false end.

(** What ensureCollection makes of the answer of CREATE or GET. *)
Definition confirmed (o : outcome (option H)) : outcome unit :=
  match o with
  | Ok (Some _) => Ok tt
  | Ok None => Throw (Error "Collection oluşturulamadı veya alınamadı")
  | Throw e => Throw e
  end.

Definition attached (o : outcome (option H)) (m : t H) : t H :=
  match o with
  | Ok h => set_collection h m
  | Throw _ => m
  end.

Definition attach (n : string) : M (R := R) (H := H) unit :=
  h ← remote_call (CallGet n) (getCollection cl n);
  set_this (set_collection h).

Definition create (n : string) : M (R := R) (H := H) unit :=
  h ← remote_call (CallCreate n) (createCollection cl n);
  set_this (set_collection h).

Definition ensureCollection : M (R := R) (H := H) unit :=
  try_catch
    (self ← get_this;
     match client self with
     | None =>
         throw (TypeError "Cannot read properties of null")
     | Some _ =>
         let n := collectionName self in
         collections ← remote_call CallList (listCollections cl);
         let existingCollection := List.find (is_named n) collections in
         (match existingCollection with
          | Some _ =>
              try_catch (attach n) (fun getError => throw getError)
          | None =>
              try_catch (create n)
                (fun createError =>
                   if already_exists createError then
                     try_catch (attach n)
                       (fun retryError => throw retryError)
                   else throw createError)
          end);;
         self ← get_this;
         match collection self with
         | None => throw (Error "Collection oluşturulamadı veya alınamadı")
         | Some _ => ret tt
         end
     end)
    (fun error => throw error).

Definition initialize : M (R := R) (H := H) unit :=
  try_catch
    ((self ← get_this;
      match client self with
      | None => set_this (set_client (Some (path self)))
      | Some _ => ret tt
      end);;
     set_this
       (set_embeddings (Some "sentence-transformers/all-MiniLM-L6-v2"));;
     ensureCollection;;
     set_this (set_isReady true))
    (fun error => throw error).

End Lifecycle.

(** *** Ingestion *)

Section Ingestion.
Context {RT : Runtime} {R H : Type}.
Variable collection_add : H -> AddRequest.t -> R -> outcome unit * R.

Definition nl : string := String (ascii_of_nat 10) "".

(** [${record.k || fallback}] *)
Definition field_or (record : ESGRecord) (k fallback : string) : string :=
  to_string (js_or (prop record k) (JStr fallback)).

(** [${record.k}] *)
Definition field (record : ESGRecord) (k : string) : string :=
  to_string (prop record k).

Definition createDocumentText (record : ESGRecord) : string :=
  "Company: " +:+ field_or record "Company" "Unknown" +:+ nl +:+
  "Ticker: " +:+ field_or record "Ticker" "N/A" +:+ nl +:+
  "Peer Group: " +:+ field_or record "Peer_group_root" "Unknown" +:+ nl +:+
  "Region: " +:+ field_or record "Region" "Unknown" +:+ nl +:+
  "Country: " +:+ field_or record "Country" "Unknown" +:+ nl +:+
  "Date: " +:+ field_or record "Date" "Unknown" +:+ nl +:+
  "Total ESG Score: " +:+ field_or record "total_esg_score" "N/A" +:+ nl +:+
  "Environmental Score: " +:+ field_or record "environment_score" "N/A" +:+ nl +:+
  "Social Score: " +:+ field_or record "social_score" "N/A" +:+ nl +:+
  "Governance Score: " +:+ field_or record "governance_score" "N/A" +:+ nl +:+
  "Scaled Environmental Score: " +:+ field_or record "scl_environment_score" "N/A" +:+ nl +:+
  "Scaled Social Score: " +:+ field_or record "scl_social_score" "N/A" +:+ nl +:+
  "Scaled Governance Score: " +:+ field_or record "scl_governance_score" "N/A" +:+ nl +:+
  "Weighted Environmental Score: " +:+ field_or record "wght_environment_score" "N/A" +:+ nl +:+
  "Weighted Social Score: " +:+ field_or record "wght_social_score" "N/A" +:+ nl +:+
  "Weighted Governance Score: " +:+ field_or record "wght_governance_score" "N/A" +:+ nl +:+
  nl +:+
  "This company " +:+ field record "Company" +:+ " (" +:+ field record "Ticker" +:+
  ") from the " +:+ field record "Country" +:+ " in " +:+ field record "Region" +:+
  " region has a total ESG performance score of " +:+ field record "total_esg_score" +:+ ". " +:+ nl +:+
  "The environmental performance score is " +:+ field record "environment_score" +:+
  ", social responsibility score is " +:+ field record "social_score" +:+
  ", and governance score is " +:+ field record "governance_score" +:+ "." +:+ nl +:+
  "The company belongs to the " +:+ field record "Peer_group_root" +:+
  " peer group. The scaled scores are: Environmental " +:+ field record "scl_environment_score" +:+
  ", Social " +:+ field record "scl_social_score" +:+
  ", Governance " +:+ field record "scl_governance_score" +:+ "." +:+ nl +:+
  "The weighted scores are: Environmental " +:+ field record "wght_environment_score" +:+
  ", Social " +:+ field record "wght_social_score" +:+
  ", Governance " +:+ field record "wght_governance_score" +:+ ".".

(** The object literal pushed on [metadatas]. *)
Definition metadata_of (record : ESGRecord) : Metadata :=
  let zero := JNum (Fin 0) in
  [ ("company", js_or (prop record "Company") (JStr "Unknown"));
    ("ticker", js_or (prop record "Ticker") (JStr ""));
    ("peer_group", js_or (prop record "Peer_group_root") (JStr "Unknown"));
    ("region", js_or (prop record "Region") (JStr "Unknown"));
    ("country", js_or (prop record "Country") (JStr "Unknown"));
    ("date", js_or (prop record "Date") zero);
    ("total_esg_score", js_or (prop record "total_esg_score") zero);
    ("environment_score", js_or (prop record "environment_score") zero);
    ("social_score", js_or (prop record "social_score") zero);
    ("governance_score", js_or (prop record "governance_score") zero);
    ("scl_environment_score", js_or (prop record "scl_environment_score") zero);
    ("scl_social_score", js_or (prop record "scl_social_score") zero);
    ("scl_governance_score", js_or (prop record "scl_governance_score") zero);
    ("wght_environment_score", js_or (prop record "wght_environment_score") zero);
    ("wght_social_score", js_or (prop record "wght_social_score") zero);
    ("wght_governance_score", js_or (prop record "wght_governance_score") zero);
    ("record_type", JStr "esg_data") ].

(** [`esg_${record.Ticker || 'unknown'}_${record.Date || startIndex + i}`] *)
Definition id_of (record : ESGRecord) (startIndex i : nat) : string :=
  "esg_" +:+ to_string (js_or (prop record "Ticker") (JStr "unknown"))
  +:+ "_" +:+ to_string (js_or (prop record "Date")
                               (JNum (num_of_nat (startIndex + i)))).

(** The [for] loop of processBatch from position [i] on; [rest] is
    [batch] from [i], the accumulator holds the three arrays. *)
Fixpoint batch_arrays (rest : list ESGRecord) (startIndex i : nat)
  (acc : AddRequest.t) : AddRequest.t :=
  match rest with
  | [] => acc
  | record :: rest' =>
      let text := createDocumentText record in
      batch_arrays rest' startIndex (S i)
        (AddRequest.mk
           (AddRequest.documents acc ++ [text])
           (AddRequest.metadatas acc ++ [metadata_of record])
           (AddRequest.ids acc ++ [id_of record startIndex i]))
  end.

(** The three arrays processBatch has built when its loop ends. *)
Definition batch_request (batch : list ESGRecord) (startIndex : nat)
  : AddRequest.t :=
  batch_arrays batch startIndex 0 (AddRequest.mk [] [] []).

Definition processBatch (batch : list ESGRecord) (startIndex : nat)
  : M (R := R) (H := H) unit :=
  let req := batch_request batch startIndex in
  (* await this.collection.add({ documents, metadatas, ids }) *)
  self ← get_this;
  match collection self with
  | None => throw (TypeError "Cannot read properties of null")
  | Some h => remote_call (CallAdd (AddRequest.ids req))
                          (collection_add h req)
  end.

(** The ids of the records of [rest], the first of which stands at
    position [i] of its batch. *)
Fixpoint ids_from (rest : list ESGRecord) (startIndex i : nat)
  : list string :=
  match rest with
  | [] => []
  | record :: rest' =>
      id_of record startIndex i :: ids_from rest' startIndex (S i)
  end.

(** The score columns of a record. *)
Definition score_fields : list string :=
  [ "total_esg_score"; "environment_score"; "social_score";
    "governance_score"; "scl_environment_score"; "scl_social_score";
    "scl_governance_score"; "wght_environment_score";
    "wght_social_score"; "wght_governance_score" ].

(** [typeof v === 'number'] *)
Definition is_number (v : jsval) : bool :=
  match v with JNum _ => true | _ => false end.

(** The ids handed to [collection.add] over a sequence of calls. *)
Definition added_ids (log : list Call) : list string :=
  flat_map (fun c => match c with CallAdd ids => ids | _ => [] end) log.

(** The ids of the records from position [i] of the whole input on. *)
Definition ids_after (data : list ESGRecord) (i : nat) : list string :=
  ids_from (skipn i data) 0 i.

(** [data.slice(i, j)] for [i <= j] *)
Definition slice {A} (i j : nat) (data : list A) : list A :=
  firstn (j - i) (skipn i data).

(** The batching loop of addESGData from index [i] on.  [Ok None]
    stands for a loop that has not ended after [fuel] rounds. *)
Fixpoint batch_loop (fuel batchSize : nat) (data : list ESGRecord)
  (i : nat) : M (R := R) (H := H) (option unit) :=
  if (i <? length data)%nat then
    match fuel with
    | O => ret None
    | S fuel' =>
        processBatch (slice i (i + batchSize) data) i;;
        batch_loop fuel' batchSize data (i + batchSize)
    end
  else ret (Some tt).

(** addESGData once the file is read and parsed into [data], for a
    batch size [batchSize]. *)
Definition addRecords (batchSize : nat) (data : list ESGRecord)
  : M (R := R) (H := H) (option unit) :=
  self ← get_this;
  if negb (isReady self) then throw (Error "ChromaDB henüz hazır değil")
  else try_catch (batch_loop (length data) batchSize data 0)
                 (fun error => throw error).

(** [const batchSize = 1000] *)
Definition addESGData (data : list ESGRecord)
  : M (R := R) (H := H) (option unit) :=
  addRecords 1000 data.

End Ingestion.

(** *** Retrieval *)









(** An element of the array returned by getESGTrends. *)
Module Pillars.
Record t : Type := mk {
  environment : jsval;
  social : jsval;
  governance : jsval
}.
End Pillars.

Record Scores : Type := mkScores {
  total_esg : jsval;
  environment : jsval;
  social : jsval;
  governance : jsval;
  scaled : Pillars.t;
  weighted : Pillars.t
}.

Record TrendEntry : Type := mkEntry {
  company : jsval;
  ticker : jsval;
  date : jsval;
  country : jsval;
  region : jsval;
  peer_group : jsval;
  scores : Scores
}.

Section Retrieval.
Context {RT : Runtime} {R H : Type}.
Variable collection_query :
  H -> QueryRequest.t -> R -> outcome QueryResponse.t * R.
Variable collection_get :
  H -> Where -> R -> outcome (list (option Metadata)) * R.

Definition lift {A} (o : outcome A) : M (R := R) (H := H) A :=
  fun st => (o, st).







(** [`${meta.company}_${meta.date}`] *)
Definition trend_key (meta : Metadata) : string :=
  to_string (prop meta "company") +:+ "_" +:+ to_string (prop meta "date").

Definition entry_of (meta : Metadata) : TrendEntry :=
  {| company := prop meta "company";
     ticker := prop meta "ticker";
     date := prop meta "date";
     country := prop meta "country";
     region := prop meta "region";
     peer_group := prop meta "peer_group";
     scores :=
       {| total_esg := prop meta "total_esg_score";
          environment := prop meta "environment_score";
          social := prop meta "social_score";
          governance := prop meta "governance_score";
          scaled :=
            Pillars.mk (prop meta "scl_environment_score")
                       (prop meta "scl_social_score")
                       (prop meta "scl_governance_score");
          weighted :=
            Pillars.mk (prop meta "wght_environment_score")
                       (prop meta "wght_social_score")
                       (prop meta "wght_governance_score") |} |}.

(** [results.metadatas.forEach(meta => { trends[key] = ... })]; reading
    [meta.company] of a null element raises. *)
Fixpoint group_trends (metas : list (option Metadata))
  (trends : Obj.t TrendEntry) : outcome (Obj.t TrendEntry) :=
  match metas with
  | [] => Ok trends
  | None :: _ => Throw (TypeError "Cannot read properties of null")
  | Some meta :: rest =>
      group_trends rest (Obj.set (trend_key meta) (entry_of meta) trends)
  end.

(** The last record of [ms] whose key is [k]. *)
Fixpoint last_keyed (k : string) (ms : list Metadata) : option Metadata :=
  match ms with
  | [] => None
  | m :: rest =>
      match last_keyed k rest with
      | Some m' => Some m'
      | None => if String.eqb (trend_key m) k then Some m else None
      end
  end.

Definition getESGTrends (filters : option Where)
  : M (R := R) (H := H) (list TrendEntry) :=
  self ← get_this;
  match collection self with
  | None => throw (TypeError "Cannot read properties of null")
  | Some h =>
      metas ← remote_call CallGetDocs
              (collection_get h (default WAll filters));
      trends ← lift (group_trends metas Obj.empty);
      ret (Obj.values trends)
  end.

End Retrieval.

End ChromaManager.

(** ** The vector store service *)

Module SpecStore.

Record StoredDoc : Type := mkDoc { text : string; meta : Metadata }.

(** Modelled from the spec: the external vector store service (section 6
    of the specification), which is not part of the repository.  A store
    maps a collection name to the documents of the collection by id. *)
Abbreviation Store := (gmap string (gmap string StoredDoc)).

(** Modelled from the spec: [listCollections()] answers with the names of
    the collections that exist. *)
Definition listCollections (r : Store) : outcome (list Listed) * Store :=
  (Ok (map (fun kv => mkListed (Some (fst kv))) (map_to_list r)), r).

(** Modelled from the spec: [createCollection(name)] fails when the
    collection exists and otherwise creates it empty. *)
Definition createCollection (n : string) (r : Store)
  : outcome (option string) * Store :=
  match r !! n with
  | Some _ => (Throw (Error ("Collection " +:+ n +:+ " already exists")), r)
  | None => (Ok (Some n), <[n := ∅]> r)
  end.

(** Modelled from the spec: [getCollection(name)] answers with a handle
    on an existing collection. *)
Definition getCollection (n : string) (r : Store)
  : outcome (option string) * Store :=
  match r !! n with
  | Some _ => (Ok (Some n), r)
  | None => (Throw (Error ("Collection " +:+ n +:+ " does not exist")), r)
  end.

(** Modelled from the spec: [deleteCollection(name)]. *)
Definition deleteCollection (n : string) (r : Store)
  : outcome unit * Store :=
  match r !! n with
  | Some _ => (Ok tt, delete n r)
  | None => (Throw (Error ("Collection " +:+ n +:+ " does not exist")), r)
  end.

Definition client : ChromaManager.Client Store string :=
  ChromaManager.mkClient Store string
    listCollections createCollection getCollection deleteCollection.

(** Writing documents one after the other; a document whose id is
    present replaces the one stored under it. *)
Fixpoint put_all (ids : list string) (docs : list string)
  (metas : list Metadata) (c : gmap string StoredDoc)
  : gmap string StoredDoc :=
  match ids, docs, metas with
  | i :: ids', d :: docs', m :: metas' =>
      put_all ids' docs' metas' (<[i := mkDoc d m]> c)
  | _, _, _ => c
  end.

(** Modelled from the spec: [add(documents, metadatas, ids)] on a
    collection handle takes three parallel arrays of equal length; an id
    collision overwrites (section 8 of the specification). *)
Definition add (h : string) (req : AddRequest.t) (r : Store)
  : outcome unit * Store :=
  match r !! h with
  | None => (Throw (Error ("Collection " +:+ h +:+ " does not exist")), r)
  | Some c =>
      if (length (AddRequest.documents req) =? length (AddRequest.ids req))%nat
         && (length (AddRequest.metadatas req) =? length (AddRequest.ids req))%nat
      then (Ok tt,
            <[h := put_all (AddRequest.ids req) (AddRequest.documents req)
                           (AddRequest.metadatas req) c]> r)
      else (Throw (Error "Unequal lengths"), r)
  end.

(** Modelled from the spec: [count()], the number of documents. *)
Definition count (h : string) (r : Store) : nat :=
  match r !! h with Some c => size c | None => 0 end.

End SpecStore.

(** ** Data of the examples *)

Module Examples.
Import ChromaManager.

Definition runtime : Runtime := ExampleRuntime.runtime.

Definition apple_2020 : ESGRecord :=
  [ ("Company", JStr "Apple Inc."); ("Ticker", JStr "AAPL");
    ("Date", JNum (Fin 2020)); ("total_esg_score", JNum (Fin 71)) ].

(** The same company and year, read from another row. *)
Definition apple_2020_again : ESGRecord :=
  [ ("Ticker", JStr "AAPL"); ("Date", JNum (Fin 2020));
    ("Company", JStr "Apple Inc."); ("total_esg_score", JNum (Fin 72)) ].

(** A row without ticker and date. *)
Definition anonymous : ESGRecord := [ ("Company", JStr "Acme") ].

(** A row whose score cell is not a number. *)
Definition unrated : ESGRecord :=
  [ ("Ticker", JStr "TSLA"); ("Date", JNum (Fin 2021));
    ("total_esg_score", JStr "N/A") ].

Definition manager : t string :=
  {| path := "http://localhost:8000";
     collectionName := "esg_documents";
     isReady := true;
     client := Some "http://localhost:8000";
     collection := Some "esg_documents";
     embeddings := Some "sentence-transformers/all-MiniLM-L6-v2" |}.

Definition empty_store : SpecStore.Store := {[ "esg_documents" := ∅ ]}.

Definition ready : St SpecStore.Store string := mkSt manager empty_store [].

(** A client whose listing is out of date: the collection exists but is
    not listed. *)
Definition stale_client : Client SpecStore.Store string :=
  mkClient SpecStore.Store string
    (fun r => (Ok [], r))
    SpecStore.createCollection SpecStore.getCollection
    SpecStore.deleteCollection.

Definition fresh : St SpecStore.Store string :=
  mkSt (constructor None (Some "esg_documents")
                    (Some "http://localhost:8000"))
       empty_store [].



Definition stored : list Metadata :=
  [ [("company", JStr "Apple Inc."); ("date", JNum (Fin 2020));
     ("total_esg_score", JNum (Fin 60))];
    [("company", JStr "Tesla"); ("date", JNum (Fin 2020));
     ("total_esg_score", JNum (Fin 40))];
    [("company", JStr "Apple Inc."); ("date", JNum (Fin 2020));
     ("total_esg_score", JNum (Fin 75))] ].

(** A collection answering every [get] with [stored]. *)
Definition holding (h : string) (w : Where) (r : unit)
  : outcome (list (option Metadata)) * unit :=
  (Ok (map Some stored), r).

Definition attached_to_unit : St unit string := mkSt manager tt [].

End Examples.

(** * Properties *)

(** ** Numbers *)

Lemma Qsgn_zero (q : Q) : (Qsgn q =? 0)%Z = true <-> (q == 0)%Q.
Proof.
  unfold Qsgn, Qeq. destruct q as [[|n|n] d]; simpl; split;
    intros; (reflexivity || discriminate || lia).
Qed.

Lemma Qsgn_nonzero (q : Q) : (Qsgn q =? 0)%Z = false <-> ~ (q == 0)%Q.
Proof.
  rewrite <- Qsgn_zero. destruct (Qsgn q =? 0)%Z; split; congruence.
Qed.

Lemma Qsgn_neg (q : Q) : (Qsgn q <? 0)%Z = true <-> (q < 0)%Q.
Proof.
  unfold Qsgn, Qlt. destruct q as [[|n|n] d]; simpl; split;
    intros; (reflexivity || discriminate || lia).
Qed.

Lemma num_lt_Fin (a b : Q) : num_lt (Fin a) (Fin b) = true <-> (a < b)%Q.
Proof.
  simpl. rewrite negb_true_iff. split.
  - intros Hle. apply Qnot_le_lt. intros Hba.
    apply Qle_bool_iff in Hba. congruence.
  - intros Hlt. destruct (Qle_bool b a) eqn:E; [|reflexivity].
    apply Qle_bool_iff in E. lra.
Qed.

Lemma num_lt_Fin_false (a b : Q) : num_lt (Fin a) (Fin b) = false <-> (b <= a)%Q.
Proof.
  simpl. rewrite negb_false_iff. apply Qle_bool_iff.
Qed.

Lemma num_lt_asym (a b : num) : num_lt a b = true -> num_lt b a = false.
Proof.
  destruct a as [p| | |], b as [q| | |]; try reflexivity; try discriminate.
  intros Hlt. apply num_lt_Fin in Hlt. apply num_lt_Fin_false. lra.
Qed.

(** ** Rounding *)

Lemma grid_pos : (0 < grid)%Z.
Proof. unfold grid. apply Z.pow_pos_nonneg; lia. Qed.

Lemma grid_steps (k : Z) :
  ((k # Z.to_pos grid) * inject_Z grid == inject_Z k)%Q.
Proof.
  unfold Qeq, Qmult, inject_Z. cbn [Qnum Qden].
  rewrite Pos.mul_1_r, Z2Pos.id by exact grid_pos. ring.
Qed.

Lemma nearest_even_floor (x : Q) : (Qfloor x <= nearest_even x)%Z.
Proof.
  unfold nearest_even.
  destruct (Qcompare _ _); [destruct (Z.even _)| |]; lia.
Qed.

(** What is at least one step away from zero does not round to zero. *)
Lemma round64_pos_sign (a : Q) :
  (1 <= a * inject_Z grid)%Q -> num_lt (Fin 0) (round64_pos a) = true.
Proof.
  intros Hsteps. unfold round64_pos.
  set (steps := (a * inject_Z grid)%Q) in *.
  set (t := Qfloor steps).
  assert (Ht : (1 <= t)%Z).
  { change 1%Z with (Qfloor 1). now apply Qfloor_resp_le. }
  assert (Htsteps : (inject_Z t <= steps)%Q) by apply Qfloor_le.
  set (s := if (t <? 2 ^ 53)%Z then 0%Z else (Z.log2 t - 52)%Z).
  assert (Hs : (0 <= s)%Z /\ (2 ^ s <= t)%Z).
  { subst s. destruct (Z.ltb_spec t (2 ^ 53)) as [_|Hge].
    - split; [lia|]. change (2 ^ 0)%Z with 1%Z. exact Ht.
    - assert (H53 : (53 <= Z.log2 t)%Z).
      { change 53%Z with (Z.log2 (2 ^ 53)). now apply Z.log2_le_mono. }
      split; [lia|].
      transitivity (2 ^ Z.log2 t)%Z.
      + apply Z.pow_le_mono_r; lia.
      + apply Z.log2_spec. lia. }
  destruct Hs as (Hs0 & Hst).
  assert (Hpow : (0 < 2 ^ s)%Z) by (apply Z.pow_pos_nonneg; lia).
  set (x := (steps / inject_Z (2 ^ s))%Q).
  assert (Hx : (1 <= x)%Q).
  { subst x. apply Qle_shift_div_l.
    - change 0%Q with (inject_Z 0). now rewrite <- Zlt_Qlt.
    - rewrite Qmult_1_l. apply Qle_trans with (inject_Z t);
        [|exact Htsteps].
      now rewrite <- Zle_Qle. }
  assert (Hm : (1 <= nearest_even x)%Z).
  { etransitivity; [|apply nearest_even_floor].
    change 1%Z with (Qfloor 1). now apply Qfloor_resp_le. }
  assert (Hk : (0 < nearest_even x * 2 ^ s)%Z) by nia.
  destruct (2 ^ 2098 <=? nearest_even x * 2 ^ s)%Z; [reflexivity|].
  apply num_lt_Fin. rewrite Qred_correct.
  unfold Qlt. cbn [Qnum Qden]. lia.
Qed.

Lemma round64_pos_grid (a r : Q) :
  round64_pos a = Fin r -> exists k, (r == k # Z.to_pos grid)%Q.
Proof.
  unfold round64_pos. destruct (_ <=? _)%Z; [discriminate|].
  intros [= <-]. eexists. apply Qred_correct.
Qed.

(** A rounded number lies on the grid of the steps. *)
Lemma round64_grid (q r : Q) :
  round64 q = Fin r -> exists k, (r == k # Z.to_pos grid)%Q.
Proof.
  unfold round64. destruct (Qcompare q 0).
  - intros [= <-]. exists 0%Z. reflexivity.
  - destruct (round64_pos (- q)) as [r0| | |] eqn:E; try discriminate.
    intros [= <-]. destruct (round64_pos_grid _ _ E) as (k & Hk).
    exists (- k)%Z. rewrite Hk. reflexivity.
  - apply round64_pos_grid.
Qed.

Lemma is_double_grid (q : Q) :
  is_double q = true -> exists k, (q == k # Z.to_pos grid)%Q.
Proof.
  unfold is_double. destruct (round64 q) as [r| | |] eqn:E; try discriminate.
  intros Heq. apply Qeq_bool_iff in Heq.
  destruct (round64_grid _ _ E) as (k & Hk). exists k. now rewrite <- Heq.
Qed.

Lemma round64_positive (a b d : Q) :
  is_double a = true -> is_double b = true -> (a < b)%Q ->
  (d == b - a)%Q ->
  num_lt (Fin 0) (round64_pos d) = true.
Proof.
  intros Ha Hb Hlt Hd.
  destruct (is_double_grid a Ha) as (ka & Hka).
  destruct (is_double_grid b Hb) as (kb & Hkb).
  apply round64_pos_sign.
  assert (Hsteps : (d * inject_Z grid == inject_Z (kb - ka))%Q).
  { rewrite Hd, Hka, Hkb.
    unfold Qeq, Qminus, Qplus, Qopp, Qmult, inject_Z. cbn [Qnum Qden].
    rewrite !Pos2Z.inj_mul, !Z2Pos.id by exact grid_pos. ring. }
  rewrite Hsteps. change 1%Q with (inject_Z 1). rewrite <- Zle_Qle.
  assert (Hk : (ka # Z.to_pos grid < kb # Z.to_pos grid)%Q)
    by now rewrite <- Hka, <- Hkb.
  unfold Qlt in Hk. cbn [Qnum Qden] in Hk. nia.
Qed.

Lemma num_neg_negative (x : num) :
  num_lt (Fin 0) x = true ->
  num_lt (num_neg x) (Fin 0) = true /\ num_lt (Fin 0) (num_neg x) = false.
Proof.
  destruct x as [q| | |]; try discriminate; [|now split].
  intros Hq. apply num_lt_Fin in Hq. cbn [num_neg]. split.
  - apply num_lt_Fin. lra.
  - apply num_lt_Fin_false. lra.
Qed.

(** The rounded difference of two binary64 numbers has the sign of
    their difference: the operands are compared by [b - a > 0] and
    [b - a < 0] as by [a < b] and [b < a]. *)
Lemma f64_sub_sign (a b : Q) :
  is_double a = true -> is_double b = true ->
  num_gt (f64_sub (Fin b) (Fin a)) (Fin 0) = num_lt (Fin a) (Fin b)
  /\ num_lt (f64_sub (Fin b) (Fin a)) (Fin 0) = num_lt (Fin b) (Fin a).
Proof.
  intros Ha Hb. unfold num_gt. cbn [f64_sub num_sub rounded].
  unfold round64.
  destruct (Qcompare (b - a) 0) eqn:Hc.
  - apply Qeq_alt in Hc.
    assert (Hab : (a == b)%Q) by lra.
    change (num_lt (Fin 0) (Fin 0)) with false.
    split; symmetry; apply num_lt_Fin_false; lra.
  - apply Qlt_alt in Hc.
    assert (Hba : (b < a)%Q) by lra.
    assert (Hpos : num_lt (Fin 0) (round64_pos (- (b - a))) = true).
    { apply (round64_positive b a); try assumption. ring. }
    destruct (num_neg_negative _ Hpos) as (Hneg & Hnot).
    rewrite Hneg, Hnot. split; symmetry.
    + apply num_lt_Fin_false. lra.
    + now apply num_lt_Fin.
  - apply Qgt_alt in Hc.
    assert (Hab : (a < b)%Q) by lra.
    pose proof (round64_positive a b (b - a) Ha Hb Hab (Qeq_refl _))
      as Hpos.
    rewrite Hpos. split; symmetry; [now apply num_lt_Fin|].
    transitivity false; [apply num_lt_Fin_false; lra|].
    destruct (round64_pos (b - a)) as [r| | |]; try discriminate;
      [|reflexivity].
    apply num_lt_Fin in Hpos. symmetry. apply num_lt_Fin_false. lra.
Qed.

(** ** Risk assessment *)

Section RiskProperties.
Context {RT : Runtime}.
Import ESGAnalyzerTool.

Lemma js_at_last {A} (l : list A) (x : A) :
  js_at (l ++ [x]) (Z.of_nat (length (l ++ [x])) - 1) = Some x.
Proof.
  unfold js_at. rewrite length_app. simpl.
  destruct (Z.ltb_spec (Z.of_nat (length l + 1) - 1) 0) as [Hneg|_]; [lia|].
  replace (Z.to_nat (Z.of_nat (length l + 1) - 1)) with (length l) by lia.
  rewrite lookup_app_r by lia. now rewrite Nat.sub_diag.
Qed.

Lemma latest_snoc (l : list Metadata) (d : Metadata) :
  latest (l ++ [d]) = Some d.
Proof. unfold latest. now rewrite js_at_last. Qed.

Lemma assessRisks_risks (data : list Metadata) :
  risks (assessRisks data)
  = flag (below40 (latest data) "environment_score") env_risk
    ++ flag (below40 (latest data) "social_score") soc_risk
    ++ flag (below40 (latest data) "governance_score") gov_risk.
Proof.
  unfold assessRisks, below40, flag. simpl.
  destruct (js_lt_num _ _), (js_lt_num _ _), (js_lt_num _ _); reflexivity.
Qed.

Lemma assessRisks_level (data : list Metadata) :
  riskLevel (assessRisks data)
  = if (2 <? length (risks (assessRisks data)))%nat then "Yüksek"
    else if (0 <? length (risks (assessRisks data)))%nat then "Orta"
    else "Düşük".
Proof. reflexivity. Qed.

Lemma below40_numeric (d : Metadata) (k : string) (q : Q) :
  prop d k = JNum (Fin q) ->
  below40 (Some d) k = true <-> (q < 40)%Q.
Proof.
  intros Hk. unfold below40, js_lt_num. simpl. rewrite Hk. simpl to_number.
  apply num_lt_Fin.
Qed.

(** C7: on the latest record of the data, one risk is flagged per pillar
    exactly when the pillar's score is below 40, nothing else is flagged
    and no risk is flagged twice; the overall level is "Yüksek" when three
    risks are present, "Orta" for one or two and "Düşük" for none; the
    record with scores 30, 80, 80 yields the single risk "Çevresel Risk"
    and level "Orta". *)
Theorem assessRisks_thresholds
  (earlier : list Metadata) (d : Metadata) (e s g : Q) :
  prop d "environment_score" = JNum (Fin e) ->
  prop d "social_score" = JNum (Fin s) ->
  prop d "governance_score" = JNum (Fin g) ->
  let r := assessRisks (earlier ++ [d]) in
  (In env_risk (risks r) <-> (e < 40)%Q)
  /\ (In soc_risk (risks r) <-> (s < 40)%Q)
  /\ (In gov_risk (risks r) <-> (g < 40)%Q)
  /\ (forall x, In x (risks r) ->
                x = env_risk \/ x = soc_risk \/ x = gov_risk)
  /\ List.NoDup (risks r)
  /\ totalRiskCount r = length (risks r)
  /\ (riskLevel r = "Yüksek" <-> (3 <= length (risks r))%nat)
  /\ (riskLevel r = "Orta" <-> (1 <= length (risks r) <= 2)%nat)
  /\ (riskLevel r = "Düşük" <-> length (risks r) = 0%nat)
  /\ assessRisks [example_record]
     = {| riskLevel := "Orta"; risks := [env_risk]; totalRiskCount := 1 |}.
Proof.
  intros He Hs Hg r.
  pose proof (below40_numeric d _ e He) as Be.
  pose proof (below40_numeric d _ s Hs) as Bs.
  pose proof (below40_numeric d _ g Hg) as Bg.
  assert (Hr : risks r
               = flag (below40 (Some d) "environment_score") env_risk
                 ++ flag (below40 (Some d) "social_score") soc_risk
                 ++ flag (below40 (Some d) "governance_score") gov_risk).
  { subst r. rewrite assessRisks_risks. now rewrite latest_snoc. }
  assert (Hl := assessRisks_level (earlier ++ [d])). fold r in Hl.
  assert (Hc : totalRiskCount r = length (risks r)) by reflexivity.
  rewrite Hl, Hc, Hr. clearbody r. clear Hr Hl Hc.
  destruct (below40 (Some d) "environment_score");
    destruct (below40 (Some d) "social_score");
    destruct (below40 (Some d) "governance_score"); simpl;
    repeat match goal with
      | |- _ /\ _ => split
      | |- List.NoDup _ => repeat constructor; simpl; intuition discriminate
      | |- forall x, _ -> _ => intros x Hx; intuition (subst; auto)
      | |- _ <-> (_ < _)%Q =>
          split; [ intros Hin | intros Hlt ];
          try (apply Be; intuition discriminate);
          try (apply Bs; intuition discriminate);
          try (apply Bg; intuition discriminate);
          try (left; reflexivity);
          try (right; left; reflexivity);
          try (right; right; left; reflexivity);
          try (apply Be in Hlt; discriminate);
          try (apply Bs in Hlt; discriminate);
          try (apply Bg in Hlt; discriminate)
      | |- _ <-> _ => split; intros; try lia; try discriminate; try reflexivity
      | |- _ = _ => reflexivity
      end.
Qed.

End RiskProperties.

(** ** Objects *)

Lemma Obj_get_set_eq {V} (k : string) (v : V) (o : Obj.t V) :
  Obj.get k (Obj.set k v o) = Some v.
Proof.
  induction o as [|[k' v'] o IH]; simpl.
  - now rewrite String.eqb_refl.
  - destruct (String.eqb k k') eqn:E; simpl; rewrite E; [reflexivity|exact IH].
Qed.

Lemma Obj_get_set_ne {V} (k k' : string) (v : V) (o : Obj.t V) :
  k <> k' -> Obj.get k (Obj.set k' v o) = Obj.get k o.
Proof.
  intros Hne. induction o as [|[k0 v0] o IH]; simpl.
  - destruct (String.eqb_spec k k'); [contradiction|reflexivity].
  - destruct (String.eqb_spec k' k0) as [->|Hk0]; simpl.
    + destruct (String.eqb_spec k k0); [contradiction|reflexivity].
    + destruct (String.eqb_spec k k0); [reflexivity|exact IH].
Qed.

Lemma Obj_set_keys_In {V} (k k0 : string) (v : V) (o : Obj.t V) :
  In k0 (Obj.keys (Obj.set k v o)) -> k0 = k \/ In k0 (Obj.keys o).
Proof.
  induction o as [|[k' v'] o IH]; cbn [Obj.set Obj.keys map fst].
  - intros [->|[]]. now left.
  - destruct (String.eqb_spec k k') as [->|Hne]; cbn [map fst].
    + intros Hin. now right.
    + intros [->|Hin]; [right; now left|].
      destruct (IH Hin) as [->|Hin']; [now left|right; now right].
Qed.

Lemma Obj_set_keys_NoDup {V} (k : string) (v : V) (o : Obj.t V) :
  List.NoDup (Obj.keys o) -> List.NoDup (Obj.keys (Obj.set k v o)).
Proof.
  induction o as [|[k' v'] o IH]; cbn [Obj.set Obj.keys map fst]; intros Hnd.
  - repeat constructor. intros [].
  - inversion Hnd as [|? ? Hnotin Hnd']; subst.
    destruct (String.eqb_spec k k') as [->|Hne]; cbn [map fst].
    + now constructor.
    + constructor; [|now apply IH].
      intros Hin. destruct (Obj_set_keys_In _ _ _ _ Hin) as [->|Hin'];
        [contradiction|]. now apply Hnotin.
Qed.

(** ** Trend analysis *)

Section TrendProperties.
Context {RT : Runtime}.
Import ESGAnalyzerTool.

Lemma fold_js_add_numbers (qs : list Q) (x : num) :
  fold_left js_add (numbers qs) (JNum x)
  = JNum (fold_left f64_add (map Fin qs) x).
Proof.
  revert x. induction qs as [|q qs IH]; intros x; [reflexivity|].
  cbn [numbers map fold_left]. apply IH.
Qed.

Lemma calculateTrends_fold (data : list Metadata) (metrics : list string)
  (acc : Obj.t Trend) (m : string) :
  Obj.get m (fold_left (trend_step data) metrics acc)
  = if existsb (String.eqb m) metrics then
      match trend_entry (metric_values data m) with
      | Some t => Some t
      | None => Obj.get m acc
      end
    else Obj.get m acc.
Proof.
  revert acc. induction metrics as [|a metrics IH]; intros acc; simpl.
  - reflexivity.
  - rewrite IH. unfold trend_step.
    destruct (String.eqb_spec m a) as [->|Hne]; simpl.
    + destruct (trend_entry (metric_values data a)) as [t|] eqn:E.
      * rewrite Obj_get_set_eq. now destruct (existsb _ _).
      * now destruct (existsb _ _).
    + destruct (trend_entry (metric_values data a)) as [t|] eqn:E;
        [rewrite Obj_get_set_ne by assumption|]; reflexivity.
Qed.

Lemma calculateTrends_get (data : list Metadata) (metrics : list string)
  (m : string) :
  Obj.get m (calculateTrends data metrics)
  = if existsb (String.eqb m) metrics
    then trend_entry (metric_values data m) else None.
Proof.
  unfold calculateTrends.
  change (fun trends metric => _) with (trend_step data).
  rewrite calculateTrends_fold. simpl.
  destruct (existsb _ _); [|reflexivity].
  now destruct (trend_entry _).
Qed.

Lemma existsb_eqb_In (m : string) (l : list string) :
  In m l -> existsb (String.eqb m) l = true.
Proof.
  intros Hin. apply existsb_exists. exists m. split; [assumption|].
  apply String.eqb_refl.
Qed.

Lemma trend_entry_short (values : list jsval) :
  (length values < 2)%nat -> trend_entry values = None.
Proof.
  intros Hlen. unfold trend_entry.
  destruct (Nat.ltb_spec 1 (length values)); [lia|reflexivity].
Qed.

Lemma trend_entry_numbers (f l : Q) (mid : list Q) :
  let qs := f :: mid ++ [l] in
  let delta := f64_sub (Fin l) (Fin f) in
  trend_entry (numbers qs)
  = Some {|
        current := JNum (Fin l);
        change := toFixed2 delta;
        changePercent :=
          toFixed2 (f64_mul (f64_div delta (Fin f)) (Fin 100));
        trend := if num_gt delta (Fin 0) then "yükseliş"
                 else if num_lt delta (Fin 0) then "düşüş"
                 else "sabit";
        average := toFixed2 (js_mean (map Fin qs))
      |}.
Proof.
  intros qs delta. unfold trend_entry.
  assert (Hlen : (1 <? length (numbers qs))%nat = true).
  { apply Nat.ltb_lt. unfold numbers, qs. rewrite length_map. simpl.
    rewrite length_app. simpl. lia. }
  rewrite Hlen.
  assert (Hlast : js_at (numbers qs) (Z.of_nat (length (numbers qs)) - 1)
                  = Some (JNum (Fin l))).
  { unfold numbers, qs.
    change (f :: mid ++ [l]) with ((f :: mid) ++ [l]).
    rewrite map_app. simpl map at 2. apply js_at_last. }
  rewrite Hlast.
  assert (Hfirst : js_at (numbers qs) 0 = Some (JNum (Fin f))) by reflexivity.
  rewrite Hfirst.
  rewrite fold_js_add_numbers.
  unfold numbers, js_mean. rewrite !length_map. reflexivity.
Qed.

(** Over a first value of zero the quotient leaves the finite numbers,
    and the product with 100 stays where the quotient is. *)
Lemma div_by_zero_percent (x : num) (f : Q) :
  (f == 0)%Q ->
  toFixed2 (f64_mul (f64_div x (Fin f)) (Fin 100))
  = if num_gt x (Fin 0) then "Infinity"
    else if num_lt x (Fin 0) then "-Infinity" else "NaN".
Proof.
  intros Hf. destruct (Qsgn_zero f) as [_ Hz]. specialize (Hz Hf).
  assert (Hneg : (Qsgn f <? 0)%Z = false).
  { apply Z.eqb_eq in Hz. rewrite Hz. reflexivity. }
  destruct x as [c| | |]; unfold f64_div, num_div; rewrite ?Hz, ?Hneg;
    try reflexivity.
  unfold num_gt.
  destruct (Qsgn c =? 0)%Z eqn:Ec.
  - apply Qsgn_zero in Ec.
    assert (H1 : num_lt (Fin 0) (Fin c) = false)
      by (apply num_lt_Fin_false; lra).
    assert (H2 : num_lt (Fin c) (Fin 0) = false)
      by (apply num_lt_Fin_false; lra).
    now rewrite H1, H2.
  - apply Qsgn_nonzero in Ec. unfold inf_of_sign.
    destruct (Qsgn c <? 0)%Z eqn:En.
    + apply Qsgn_neg in En.
      assert (H1 : num_lt (Fin 0) (Fin c) = false)
        by (apply num_lt_Fin_false; lra).
      assert (H2 : num_lt (Fin c) (Fin 0) = true)
        by (apply num_lt_Fin; lra).
      now rewrite H1, H2.
    + assert (Hpos : (0 < c)%Q).
      { destruct (Qlt_le_dec c 0) as [Hlt|Hge].
        - apply Qsgn_neg in Hlt. congruence.
        - destruct (Qlt_le_dec 0 c); [assumption|].
          exfalso. apply Ec. lra. }
      assert (H1 : num_lt (Fin 0) (Fin c) = true)
        by (apply num_lt_Fin; lra).
      now rewrite H1.
Qed.

(** C6, as the code has it: for a requested metric whose available values
    are the numbers [f], ..., [l] (at least two), the analyzer reports
    current = last value, change = last - first, changePercent = change /
    first * 100 and average = sum / count, every operation rounded as
    JavaScript rounds it and the last three rendered with two decimals,
    and the trend "yükseliş" for a positive change and "düşüş" for a
    negative one, which for binary64 values is to say for a last value
    above and below the first; when the first value is 0 the entry is
    still produced and changePercent is one of the texts "Infinity",
    "-Infinity", "NaN"; a metric with fewer than two values gets no
    entry; values [50, 60] give 10.00, 20.00, "yükseliş", [60, 50] give
    "düşüş", -16.67, and [40, 45.75] give 14.37, the digits of the
    rounded product. *)
Theorem calculateTrends_metric
  (data : list Metadata) (metrics : list string) (metric : string)
  (f l : Q) (mid : list Q) :
  In metric metrics ->
  metric_values data metric = numbers (f :: mid ++ [l]) ->
  let qs := f :: mid ++ [l] in
  let delta := f64_sub (Fin l) (Fin f) in
  (exists t,
      Obj.get metric (calculateTrends data metrics) = Some t
      /\ current t = JNum (Fin l)
      /\ change t = toFixed2 delta
      /\ changePercent t
         = toFixed2 (f64_mul (f64_div delta (Fin f)) (Fin 100))
      /\ ((f == 0)%Q ->
          changePercent t
          = if num_gt delta (Fin 0) then "Infinity"
            else if num_lt delta (Fin 0) then "-Infinity" else "NaN")
      /\ average t = toFixed2 (js_mean (map Fin qs))
      /\ (num_gt delta (Fin 0) = true -> trend t = "yükseliş")
      /\ (num_lt delta (Fin 0) = true -> trend t = "düşüş")
      /\ (is_double f = true -> is_double l = true ->
          ((f < l)%Q -> trend t = "yükseliş")
          /\ ((l < f)%Q -> trend t = "düşüş")
          /\ ((l == f)%Q -> trend t = "sabit")))
  /\ (forall m, (length (metric_values data m) < 2)%nat ->
                Obj.get m (calculateTrends data metrics) = None)
  /\ calculateTrends [one_metric "m" 50; one_metric "m" 60] ["m"]
     = [("m", {| current := JNum (Fin 60); change := "10.00";
                 changePercent := "20.00"; trend := "yükseliş";
                 average := "55.00" |})]
  /\ calculateTrends [one_metric "m" 60; one_metric "m" 50] ["m"]
     = [("m", {| current := JNum (Fin 50); change := "-10.00";
                 changePercent := "-16.67"; trend := "düşüş";
                 average := "55.00" |})]
  /\ calculateTrends [one_metric "m" 0; one_metric "m" 50] ["m"]
     = [("m", {| current := JNum (Fin 50); change := "50.00";
                 changePercent := "Infinity"; trend := "yükseliş";
                 average := "25.00" |})]
  /\ calculateTrends [one_metric "m" 40; one_metric "m" (183 # 4)] ["m"]
     = [("m", {| current := JNum (Fin (183 # 4)); change := "5.75";
                 changePercent := "14.37"; trend := "yükseliş";
                 average := "42.88" |})].
Proof.
  intros Hin Hvals qs delta.
  split; [|split; [|split; [|split; [|split]]]];
    [| |vm_compute; reflexivity ..].
  - rewrite calculateTrends_get, (existsb_eqb_In _ _ Hin), Hvals.
    rewrite trend_entry_numbers. fold delta. eexists. split; [reflexivity|].
    cbn [current change changePercent trend average].
    split; [reflexivity|]. split; [reflexivity|]. split; [reflexivity|].
    split; [intros Hf; now apply div_by_zero_percent|].
    split; [reflexivity|].
    split; [intros ->; reflexivity|].
    split.
    { intros Hneg.
      destruct (num_gt delta (Fin 0)) eqn:Hpos; [|now rewrite Hneg].
      unfold num_gt in Hpos. now rewrite (num_lt_asym _ _ Hneg) in Hpos. }
    intros Hf Hl. destruct (f64_sub_sign f l Hf Hl) as (Hgt & Hlt).
    fold delta in Hgt, Hlt. rewrite Hgt, Hlt.
    split; [|split].
    + intros Hup. apply num_lt_Fin in Hup. now rewrite Hup.
    + intros Hdown.
      assert (H1 : num_lt (Fin f) (Fin l) = false)
        by (apply num_lt_Fin_false; lra).
      apply num_lt_Fin in Hdown. now rewrite H1, Hdown.
    + intros Hsame.
      assert (H1 : num_lt (Fin f) (Fin l) = false)
        by (apply num_lt_Fin_false; lra).
      assert (H2 : num_lt (Fin l) (Fin f) = false)
        by (apply num_lt_Fin_false; lra).
      now rewrite H1, H2.
  - intros m Hlen. rewrite calculateTrends_get.
    rewrite trend_entry_short by assumption. now destruct (existsb _ _).
Qed.

End TrendProperties.

(** ** Sorting by a numeric key, largest first *)

Lemma num_ge_trans (a b c : num) :
  is_nan b = false ->
  num_lt a b = false -> num_lt b c = false -> num_lt a c = false.
Proof.
  destruct a as [p| | |], b as [q| | |], c as [r| | |];
    try reflexivity; try discriminate.
  intros _ Hab Hbc. apply num_lt_Fin_false in Hab, Hbc.
  apply num_lt_Fin_false. lra.
Qed.

Lemma num_gt_sub (a b : num) :
  is_nan a = false -> is_nan b = false ->
  num_gt (num_sub b a) (Fin 0) = num_lt a b.
Proof.
  destruct a as [p| | |], b as [q| | |]; try reflexivity; try discriminate.
  intros _ _. unfold num_gt, num_sub.
  destruct (num_lt (Fin p) (Fin q)) eqn:E.
  - apply num_lt_Fin in E. apply num_lt_Fin. lra.
  - apply num_lt_Fin_false in E. apply num_lt_Fin_false. lra.
Qed.

Section SortByKey.
Context {A : Type} (key : A -> num).

Lemma sort_insert_perm (x : A) (l : list A) :
  Permutation (x :: l) (sort_insert (descending key) x l).
Proof.
  induction l as [|y l IH]; cbn [sort_insert js_sort]; [reflexivity|].
  destruct (num_gt ((descending key) x y) (Fin 0)); [|reflexivity].
  etransitivity; [apply perm_swap|]. now constructor.
Qed.

Lemma js_sort_perm (l : list A) : Permutation l (js_sort (descending key) l).
Proof.
  induction l as [|x l IH]; cbn [sort_insert js_sort]; [reflexivity|].
  etransitivity; [|apply sort_insert_perm]. now constructor.
Qed.

Lemma keyed_perm (l l' : list A) : Permutation l l' -> (keyed key) l -> (keyed key) l'.
Proof. intros Hp Hk. unfold keyed in *. now rewrite <- Hp. Qed.

Lemma sort_insert_sorted (x : A) (l : list A) :
  is_nan (key x) = false -> (keyed key) l ->
  StronglySorted (not_below key) l ->
  StronglySorted (not_below key) (sort_insert (descending key) x l).
Proof.
  intros Hx Hk Hs. induction Hs as [|y l Hs IH Hall]; cbn [sort_insert].
  - repeat constructor.
  - inversion Hk as [|? ? Hy Hk']; subst.
    unfold descending at 1. rewrite num_gt_sub by assumption.
    destruct (num_lt (key x) (key y)) eqn:E.
    + constructor; [now apply IH|].
      assert (Hp := sort_insert_perm x l).
      rewrite <- Hp. constructor; [|assumption].
      now apply num_lt_asym.
    + constructor; [now constructor|].
      constructor; [exact E|].
      rewrite List.Forall_forall in Hall |- *. intros z Hz.
      eapply num_ge_trans; [exact Hy|exact E|]. now apply Hall.
Qed.

Lemma js_sort_sorted (l : list A) :
  (keyed key) l -> StronglySorted (not_below key) (js_sort (descending key) l).
Proof.
  induction l as [|x l IH]; intros Hk; cbn [js_sort]; [constructor|].
  inversion Hk; subst. apply sort_insert_sorted; [assumption| |now apply IH].
  eapply keyed_perm; [apply js_sort_perm|assumption].
Qed.

Lemma sorted_keys (l : list A) :
  StronglySorted (not_below key) l ->
  StronglySorted (fun a b => num_lt a b = false) (map key l).
Proof.
  induction 1 as [|x l Hs IH Hall]; simpl; constructor; [assumption|].
  rewrite List.Forall_forall in *. intros k Hk.
  apply List.in_map_iff in Hk as (y & <- & Hy). now apply Hall.
Qed.
End SortByKey.

(** ** Sector analysis *)

Section SectorProperties.
Context {RT : Runtime}.
Import MarketAnalyzerTool.

Lemma metadata_of_all_some (results : list SearchHit) (ms : list Metadata) :
  map metadata results = map Some ms -> metadata_of_all results = Ok ms.
Proof.
  revert ms. induction results as [|r results IH]; intros [|m ms] Heq;
    simpl in *; try discriminate; [reflexivity|].
  injection Heq as Hr Hrest. rewrite Hr, (IH ms Hrest). reflexivity.
Qed.

Lemma numeric_scores_map (metric : string) (ms : list Metadata) :
  numeric_scores metric ms
  = map (metric_score metric) (List.filter (has_score metric) ms).
Proof.
  unfold numeric_scores, has_score.
  induction ms as [|m ms IH]; simpl; [reflexivity|].
  destruct (is_nan (metric_score metric m)); simpl; now rewrite IH.
Qed.

Lemma filter_keyed (metric : string) (ms : list Metadata) :
  keyed (metric_score metric) (List.filter (has_score metric) ms).
Proof.
  apply List.Forall_forall. intros m Hm.
  apply List.filter_In in Hm as [_ Hm]. unfold has_score in Hm.
  now apply negb_true_iff in Hm.
Qed.

Lemma analyze_topPerformers (ms : list Metadata) (metric : string) :
  map score (topPerformers (analyze ms metric))
  = firstn 10 (map (metric_score metric) (ranked metric ms)).
Proof.
  unfold analyze, ranked, slice0, descending. cbn [topPerformers].
  rewrite List.map_map. cbn [score].
  now rewrite List.firstn_map.
Qed.

(** C8: when every hit carries a metadata object the analysis succeeds;
    totalCompanies counts the metric values that parse as a number and
    averageScore is their mean with two decimals, the sum and the
    quotient rounded as JavaScript rounds them (the other values take no
    part); with no numeric value the average is reported as 0.00, the
    count as 0 and nothing is divided; the scores of topPerformers are
    the first ten of the numeric values ranked largest first; values 40,
    50, 90 give "60.00" and the order 90, 50, 40, and the ten values
    30.25, 30.5, 30, ..., 30 give "30.07", the digits of the rounded
    quotient. *)
Theorem analyzeSectorMetrics_mean_and_ranking
  (results : list SearchHit) (metric : string) (ms : list Metadata) :
  map metadata results = map Some ms ->
  let scores := numeric_scores metric ms in
  (exists a,
      analyzeSectorMetrics results metric = Ok a
      /\ totalCompanies a = length scores
      /\ (scores <> [] -> averageScore a = toFixed2 (js_mean scores))
      /\ (scores = [] ->
          averageScore a = "0.00" /\ totalCompanies a = 0%nat
          /\ topPerformers a = [])
      /\ (exists order,
             Permutation order scores
             /\ StronglySorted (fun x y => num_lt x y = false) order
             /\ Forall (fun x => is_nan x = false) order
             /\ map score (topPerformers a) = firstn 10 order))
  /\ analyzeSectorMetrics [scored 40; scored 50; scored 90]
                          "environment_score"
     = Ok {| averageScore := "60.00";
             topPerformers := [performer 90; performer 50; performer 40];
             recommendations :=
               ["Çevresel performans orta seviyede. Yenilenebilir enerji geçişi hızlandırılmalı."];
             totalCompanies := 3 |}
  /\ (exists a,
         analyzeSectorMetrics
           (scored (121 # 4) :: scored (61 # 2) :: repeat (scored 30) 8)
           "environment_score" = Ok a
         /\ averageScore a = "30.07"
         /\ totalCompanies a = 10%nat).
Proof.
  intros Hmeta scores.
  split; [|split; [vm_compute; reflexivity|]];
    [|eexists; split; [vm_compute; reflexivity|]; split; reflexivity].
  unfold analyzeSectorMetrics. rewrite (metadata_of_all_some _ _ Hmeta).
  eexists. split; [reflexivity|].
  split; [reflexivity|]. split; [|split].
  - intros Hne. unfold analyze. cbn [averageScore].
    fold (numeric_scores metric ms). fold scores.
    assert (Hlen : length scores <> 0%nat)
      by (destruct scores; [congruence|discriminate]).
    destruct (Nat.ltb_spec 0 (length scores)) as [_|Hle]; [|lia].
    reflexivity.
  - intros Hnil. unfold analyze.
    cbn [averageScore totalCompanies topPerformers].
    fold (numeric_scores metric ms). fold scores. rewrite Hnil.
    split; [reflexivity|]. split; [reflexivity|].
    fold (has_score metric).
    assert (Hf : List.filter (has_score metric) ms = []).
    { apply (f_equal (@length _)) in Hnil. unfold scores in Hnil.
      rewrite numeric_scores_map, length_map in Hnil.
      now destruct (List.filter (has_score metric) ms). }
    change (fun m => negb (is_nan (metric_score metric m)))
      with (has_score metric).
    now rewrite Hf.
  - exists (map (metric_score metric) (ranked metric ms)).
    split; [|split; [|split]].
    + unfold scores. rewrite numeric_scores_map.
      apply Permutation_map. symmetry. apply js_sort_perm.
    + apply sorted_keys. apply js_sort_sorted. apply filter_keyed.
    + apply List.Forall_forall. intros k Hk.
      apply List.in_map_iff in Hk as (m & <- & Hm).
      assert (Hkeyed : keyed (metric_score metric) (ranked metric ms)).
      { eapply keyed_perm; [apply js_sort_perm|apply filter_keyed]. }
      unfold keyed in Hkeyed. rewrite List.Forall_forall in Hkeyed.
      now apply Hkeyed.
    + apply analyze_topPerformers.
Qed.

End SectorProperties.


(** ** Collection lifecycle *)

Section LifecycleProperties.
Import ChromaManager.
Context {R H : Type} (cl : Client R H).

Ltac run :=
  unfold ensureCollection, attach, create, try_catch, mbind, M_bind, bind,
    remote_call, get_this, set_this, throw, ret; cbn [this remote calls].

Lemma ensureCollection_present (st : St R H) (p : string)
  (cols : list Listed) (c : Listed) (r1 : R) :
  client (this st) = Some p ->
  listCollections cl (remote st) = (Ok cols, r1) ->
  List.find (is_named (collectionName (this st))) cols = Some c ->
  let n := collectionName (this st) in
  ensureCollection cl st
  = let (o, r2) := getCollection cl n r1 in
    (confirmed o,
     mkSt (attached o (this st)) r2 (calls st ++ [CallList; CallGet n])).
Proof.
  intros Hc Hl Hf n. subst n. run. rewrite Hc, Hl. cbn [this remote calls].
  rewrite Hf. cbn [this remote calls].
  destruct (getCollection cl _ r1) as [[[h|]|e] r2]; cbn;
    rewrite <- app_assoc; reflexivity.
Qed.

Lemma ensureCollection_absent (st : St R H) (p : string)
  (cols : list Listed) (r1 : R) :
  client (this st) = Some p ->
  listCollections cl (remote st) = (Ok cols, r1) ->
  List.find (is_named (collectionName (this st))) cols = None ->
  let n := collectionName (this st) in
  ensureCollection cl st
  = match createCollection cl n r1 with
    | (Ok h, r2) =>
        (confirmed (Ok h),
         mkSt (set_collection h (this st)) r2
              (calls st ++ [CallList; CallCreate n]))
    | (Throw e, r2) =>
        if already_exists e then
          let (o, r3) := getCollection cl n r2 in
          (confirmed o,
           mkSt (attached o (this st)) r3
                (calls st ++ [CallList; CallCreate n; CallGet n]))
        else
          (Throw e,
           mkSt (this st) r2 (calls st ++ [CallList; CallCreate n]))
    end.
Proof.
  intros Hc Hl Hf n. subst n. run. rewrite Hc, Hl. cbn [this remote calls].
  rewrite Hf. cbn [this remote calls].
  destruct (createCollection cl _ r1) as [[[h|]|e] r2]; cbn;
    rewrite <- ?app_assoc; try reflexivity.
  destruct (already_exists e); cbn; [|rewrite <- ?app_assoc; reflexivity].
  destruct (getCollection cl _ r2) as [[[h|]|e'] r3]; cbn;
    rewrite <- ?app_assoc; reflexivity.
Qed.

Lemma ensureCollection_list_fails (st : St R H) (p : string)
  (e : JsError) (r1 : R) :
  client (this st) = Some p ->
  listCollections cl (remote st) = (Throw e, r1) ->
  ensureCollection cl st
  = (Throw e, mkSt (this st) r1 (calls st ++ [CallList])).
Proof. intros Hc Hl. run. now rewrite Hc, Hl. Qed.

End LifecycleProperties.

Section StoreLifecycle.
Import ChromaManager.

Lemma listing_finds (store : SpecStore.Store) (n : string)
  (c : gmap string SpecStore.StoredDoc) :
  store !! n = Some c ->
  exists l, fst (SpecStore.listCollections store) = Ok l
            /\ List.find (is_named n) l <> None.
Proof.
  intros Hn. eexists. split; [reflexivity|].
  intros Hnone.
  assert (Hfalse : is_named n (mkListed (Some n)) = false).
  { apply (List.find_none _ _ Hnone (mkListed (Some n))).
    apply List.in_map_iff. exists (n, c). split; [reflexivity|].
    apply list_elem_of_In. now apply elem_of_map_to_list. }
  unfold is_named in Hfalse. simpl in Hfalse.
  rewrite String.eqb_refl in Hfalse. discriminate.
Qed.

Lemma ensureCollection_existing (st : St SpecStore.Store string)
  (p : string) (c : gmap string SpecStore.StoredDoc) :
  client (this st) = Some p ->
  remote st !! collectionName (this st) = Some c ->
  ensureCollection SpecStore.client st
  = (Ok tt,
     mkSt (set_collection (Some (collectionName (this st))) (this st))
          (remote st)
          (calls st ++ [CallList; CallGet (collectionName (this st))])).
Proof.
  intros Hc Hn.
  destruct (listing_finds _ _ _ Hn) as (l & Hl & Hf).
  destruct (List.find (is_named (collectionName (this st))) l) as [x|] eqn:E;
    [|congruence].
  rewrite (ensureCollection_present SpecStore.client st p l x (remote st));
    try assumption.
  - cbn. unfold SpecStore.getCollection. now rewrite Hn.
  - cbn. unfold SpecStore.listCollections in *. cbn in Hl. congruence.
Qed.

Lemma initialize_existing (st : St SpecStore.Store string)
  (c : gmap string SpecStore.StoredDoc) :
  remote st !! collectionName (this st) = Some c ->
  exists m,
    initialize SpecStore.client st
    = (Ok tt,
       mkSt m (remote st)
            (calls st ++ [CallList; CallGet (collectionName (this st))]))
    /\ isReady m = true
    /\ collection m = Some (collectionName (this st))
    /\ collectionName m = collectionName (this st).
Proof.
  intros Hn.
  unfold initialize, try_catch, mbind, M_bind, bind, get_this, set_this, ret.
  destruct (client (this st)) as [p|] eqn:Hc; cbn [this remote calls].
  - erewrite ensureCollection_existing; cbn; try eassumption.
    eexists. split; [reflexivity|]. cbn. auto.
  - erewrite ensureCollection_existing; cbn; try eassumption;
      [|reflexivity].
    eexists. split; [reflexivity|]. cbn. auto.
Qed.

End StoreLifecycle.

(** C3: when the target name is absent from the listed collections,
    ensureCollection calls CREATE; a CREATE failure whose message says
    "already exists" is followed by one GET, whose answer decides the
    outcome; any other CREATE failure, and a failure of that GET, is raised
    to the caller unchanged.  Against a store in which the collection
    exists, initialize() called twice succeeds twice, and each call ends
    ready with a handle on the collection of that name, having only listed
    and fetched it. *)
Theorem ensureCollection_create_then_get
  {R H : Type} (cl : ChromaManager.Client R H) (st : ChromaManager.St R H)
  (p : string) (cols : list Listed) (r1 : R) :
  ChromaManager.client (ChromaManager.this st) = Some p ->
  ChromaManager.listCollections cl (ChromaManager.remote st) = (Ok cols, r1) ->
  List.find
    (ChromaManager.is_named
       (ChromaManager.collectionName (ChromaManager.this st))) cols = None ->
  let n := ChromaManager.collectionName (ChromaManager.this st) in
  let log := ChromaManager.calls st in
  ChromaManager.ensureCollection cl st
  = match ChromaManager.createCollection cl n r1 with
    | (Ok h, r2) =>
        (ChromaManager.confirmed (Ok h),
         ChromaManager.mkSt
           (ChromaManager.set_collection h (ChromaManager.this st)) r2
           (log ++ [CallList; CallCreate n]))
    | (Throw e, r2) =>
        if ChromaManager.already_exists e then
          let (o, r3) := ChromaManager.getCollection cl n r2 in
          (ChromaManager.confirmed o,
           ChromaManager.mkSt
             (ChromaManager.attached o (ChromaManager.this st)) r3
                              (log ++ [CallList; CallCreate n; CallGet n]))
        else
          (Throw e,
           ChromaManager.mkSt (ChromaManager.this st) r2
                              (log ++ [CallList; CallCreate n]))
    end
  /\ (forall (store : SpecStore.Store) (m : ChromaManager.t string)
             (c : gmap string SpecStore.StoredDoc),
         store !! ChromaManager.collectionName m = Some c ->
         let name := ChromaManager.collectionName m in
         let first :=
           ChromaManager.initialize SpecStore.client
             (ChromaManager.mkSt m store []) in
         let second :=
           ChromaManager.initialize SpecStore.client (snd first) in
         fst first = Ok tt /\ fst second = Ok tt
         /\ ChromaManager.isReady (ChromaManager.this (snd first)) = true
         /\ ChromaManager.isReady (ChromaManager.this (snd second)) = true
         /\ ChromaManager.collection (ChromaManager.this (snd first))
            = Some name
         /\ ChromaManager.collection (ChromaManager.this (snd second))
            = Some name
         /\ ChromaManager.remote (snd second) = store
         /\ ChromaManager.calls (snd second)
            = [CallList; CallGet name; CallList; CallGet name]).
Proof.
  intros Hc Hl Hf n log. split.
  - exact (ensureCollection_absent cl st p cols r1 Hc Hl Hf).
  - intros store m c Hm name first second.
    destruct (initialize_existing (ChromaManager.mkSt m store []) c Hm)
      as (m1 & E1 & Hr1 & Hh1 & Hn1).
    cbn [ChromaManager.this ChromaManager.remote ChromaManager.calls] in *.
    assert (Hm1 : store !! ChromaManager.collectionName m1 = Some c)
      by now rewrite Hn1.
    destruct (initialize_existing
                (ChromaManager.mkSt m1 store
                   ([] ++ [CallList; CallGet (ChromaManager.collectionName m)]))
                c Hm1)
      as (m2 & E2 & Hr2 & Hh2 & Hn2).
    cbn [ChromaManager.this ChromaManager.remote ChromaManager.calls] in *.
    subst first second. rewrite E1. cbn [fst snd]. rewrite E2. cbn [fst snd].
    cbn [ChromaManager.this ChromaManager.remote ChromaManager.calls].
    rewrite Hn1 in *. subst name. cbn [app].
    repeat split; assumption || reflexivity.
Qed.

(** ** Ingestion *)

Section IngestionProperties.
Import ChromaManager.
Context {RT : Runtime}.

Lemma batch_arrays_spec (rest : list ESGRecord) (startIndex i : nat)
  (acc : AddRequest.t) :
  batch_arrays rest startIndex i acc
  = AddRequest.mk
      (AddRequest.documents acc ++ map createDocumentText rest)
      (AddRequest.metadatas acc ++ map metadata_of rest)
      (AddRequest.ids acc ++ ids_from rest startIndex i).
Proof.
  revert i acc. induction rest as [|record rest IH]; intros i acc; simpl.
  - rewrite !app_nil_r. now destruct acc.
  - rewrite IH. simpl. now rewrite <- !app_assoc.
Qed.

Lemma batch_request_spec (batch : list ESGRecord) (startIndex : nat) :
  batch_request batch startIndex
  = AddRequest.mk (map createDocumentText batch) (map metadata_of batch)
                  (ids_from batch startIndex 0).
Proof. unfold batch_request. now rewrite batch_arrays_spec. Qed.

Lemma length_ids_from (rest : list ESGRecord) (startIndex i : nat) :
  length (ids_from rest startIndex i) = length rest.
Proof.
  revert i. induction rest as [|r rest IH]; intros i; simpl; [reflexivity|].
  now rewrite IH.
Qed.

Lemma lookup_ids_from (rest : list ESGRecord) (startIndex i j : nat) :
  ids_from rest startIndex i !! j
  = (fun record => id_of record startIndex (i + j)) <$> rest !! j.
Proof.
  revert i j. induction rest as [|r rest IH]; intros i [|j]; simpl;
    try reflexivity.
  - now rewrite Nat.add_0_r.
  - rewrite IH. now rewrite Nat.add_succ_comm.
Qed.

Lemma processBatch_run {R H : Type}
  (collection_add : H -> AddRequest.t -> R -> outcome unit * R)
  (batch : list ESGRecord) (startIndex : nat) (st : St R H) (h : H) :
  collection (this st) = Some h ->
  processBatch collection_add batch startIndex st
  = let req := batch_request batch startIndex in
    let (o, r) := collection_add h req (remote st) in
    (o, mkSt (this st) r (calls st ++ [CallAdd (AddRequest.ids req)])).
Proof.
  intros Hh. unfold processBatch, mbind, M_bind, bind, get_this, remote_call.
  rewrite Hh. reflexivity.
Qed.

(** C4: processBatch hands the collection, in one call, three arrays of
    the length of the batch, and the record at position [i] of the batch
    is the source of the entry at position [i] of each of them. *)
Theorem processBatch_arrays_aligned {R H : Type}
  (collection_add : H -> AddRequest.t -> R -> outcome unit * R)
  (batch : list ESGRecord) (startIndex : nat) (st : St R H) (h : H) :
  collection (this st) = Some h ->
  exists req,
    processBatch collection_add batch startIndex st
    = (let (o, r) := collection_add h req (remote st) in
       (o, mkSt (this st) r (calls st ++ [CallAdd (AddRequest.ids req)])))
    /\ length (AddRequest.documents req) = length batch
    /\ length (AddRequest.metadatas req) = length batch
    /\ length (AddRequest.ids req) = length batch
    /\ (forall i record,
           batch !! i = Some record ->
           AddRequest.documents req !! i = Some (createDocumentText record)
           /\ AddRequest.metadatas req !! i = Some (metadata_of record)
           /\ AddRequest.ids req !! i = Some (id_of record startIndex i))
    /\ (forall i, (length batch <= i)%nat ->
           AddRequest.documents req !! i = None
           /\ AddRequest.metadatas req !! i = None
           /\ AddRequest.ids req !! i = None).
Proof.
  intros Hh. exists (batch_request batch startIndex).
  split; [now apply processBatch_run|].
  rewrite batch_request_spec. cbn [AddRequest.documents AddRequest.metadatas
                                   AddRequest.ids].
  rewrite !length_map, length_ids_from.
  split; [reflexivity|]. split; [reflexivity|]. split; [reflexivity|].
  split.
  - intros i record Hi. repeat split.
    + rewrite list_lookup_fmap, Hi. reflexivity.
    + rewrite list_lookup_fmap, Hi. reflexivity.
    + rewrite lookup_ids_from, Hi. reflexivity.
  - intros i Hi. repeat split; apply lookup_ge_None;
      rewrite ?length_map, ?length_ids_from; exact Hi.
Qed.

Lemma metadata_of_score (record : ESGRecord) (k : string) :
  In k score_fields ->
  Obj.get k (metadata_of record)
  = Some (js_or (prop record k) (JNum (Fin 0))).
Proof.
  intros Hk. unfold score_fields in Hk. simpl in Hk.
  repeat (destruct Hk as [<-|Hk]; [reflexivity|]). destruct Hk.
Qed.

Lemma prop_missing (record : ESGRecord) (k : string) :
  Obj.get k record = None -> prop record k = JUndefined.
Proof. intros Hk. unfold prop. now rewrite Hk. Qed.

(** C9, as the code has it: the metadata written for a record holds
    every score field; the field is 0 when the record's value is missing
    or otherwise falsy (null, the empty string, 0, NaN, false), it is a
    number whenever the record's value is one, and any other value is
    written unchanged; record_type is always "esg_data". *)
Theorem processBatch_score_defaults
  (batch : list ESGRecord) (startIndex i : nat) (record : ESGRecord)
  (k : string) :
  batch !! i = Some record ->
  In k score_fields ->
  exists md,
    AddRequest.metadatas (batch_request batch startIndex) !! i = Some md
    /\ Obj.get k md = Some (js_or (prop record k) (JNum (Fin 0)))
    /\ (Obj.get k record = None -> prop md k = JNum (Fin 0))
    /\ (truthy (prop record k) = false -> prop md k = JNum (Fin 0))
    /\ (is_number (prop record k) = true -> is_number (prop md k) = true)
    /\ (truthy (prop record k) = true -> prop md k = prop record k)
    /\ prop md "record_type" = JStr "esg_data".
Proof.
  intros Hi Hk. exists (metadata_of record).
  rewrite batch_request_spec. cbn [AddRequest.metadatas].
  split; [now rewrite list_lookup_fmap, Hi|].
  pose proof (metadata_of_score record k Hk) as Hget.
  split; [exact Hget|].
  assert (Hprop : prop (metadata_of record) k
                  = js_or (prop record k) (JNum (Fin 0))).
  { unfold prop at 1. now rewrite Hget. }
  rewrite Hprop. unfold js_or.
  repeat split.
  - intros Hnone. now rewrite (prop_missing _ _ Hnone).
  - intros Hf. now rewrite Hf.
  - intros Hn. destruct (truthy (prop record k)); [exact Hn|reflexivity].
  - intros Ht. now rewrite Ht.
Qed.

(** The parts of an id. *)
Lemma id_of_parts (record : ESGRecord) (startIndex i : nat) :
  id_of record startIndex i
  = "esg_"
    +:+ (if truthy (prop record "Ticker")
         then to_string (prop record "Ticker") else "unknown")
    +:+ "_"
    +:+ (if truthy (prop record "Date")
         then to_string (prop record "Date")
         else number_to_string (inject_Z (Z.of_nat (startIndex + i)))).
Proof.
  unfold id_of, js_or.
  destruct (truthy (prop record "Ticker")), (truthy (prop record "Date"));
    reflexivity.
Qed.

Lemma id_of_dated (r1 r2 : ESGRecord) (s1 i1 s2 i2 : nat) :
  prop r1 "Ticker" = prop r2 "Ticker" ->
  prop r1 "Date" = prop r2 "Date" ->
  truthy (prop r1 "Date") = true ->
  id_of r1 s1 i1 = id_of r2 s2 i2.
Proof.
  intros Ht Hd Htruthy. rewrite !id_of_parts, <- Ht, <- Hd, Htruthy.
  reflexivity.
Qed.

Lemma id_of_position (record : ESGRecord) (s1 i1 s2 i2 : nat) :
  (s1 + i1 = s2 + i2)%nat -> id_of record s1 i1 = id_of record s2 i2.
Proof. intros Hpos. unfold id_of. now rewrite Hpos. Qed.

End IngestionProperties.


(** ** Ingestion into the store *)

Section StoreIngestion.
Import ChromaManager.
Context {RT : Runtime}.

Lemma processBatch_store (batch : list ESGRecord) (startIndex : nat)
  (st : St SpecStore.Store string) (h : string)
  (c : gmap string SpecStore.StoredDoc) :
  collection (this st) = Some h ->
  remote st !! h = Some c ->
  processBatch SpecStore.add batch startIndex st
  = (Ok tt,
     mkSt (this st)
          (<[h := SpecStore.put_all (ids_from batch startIndex 0)
                    (map createDocumentText batch)
                    (map metadata_of batch) c]> (remote st))
          (calls st ++ [CallAdd (ids_from batch startIndex 0)])).
Proof.
  intros Hh Hc. rewrite (processBatch_run _ _ _ _ h Hh).
  rewrite batch_request_spec. cbn zeta. unfold SpecStore.add.
  cbn [AddRequest.documents AddRequest.metadatas AddRequest.ids].
  rewrite Hc, !length_map, length_ids_from, Nat.eqb_refl. reflexivity.
Qed.

Lemma put_all_app (ids1 ids2 : list string) (docs1 docs2 : list string)
  (metas1 metas2 : list Metadata) (c : gmap string SpecStore.StoredDoc) :
  length docs1 = length ids1 -> length metas1 = length ids1 ->
  SpecStore.put_all (ids1 ++ ids2) (docs1 ++ docs2) (metas1 ++ metas2) c
  = SpecStore.put_all ids2 docs2 metas2
      (SpecStore.put_all ids1 docs1 metas1 c).
Proof.
  revert docs1 metas1 c.
  induction ids1 as [|i ids1 IH]; intros [|d docs1] [|m metas1] c Hd Hm;
    simpl in *; try discriminate; [reflexivity|].
  apply IH; congruence.
Qed.

Lemma ids_from_shift (rest : list ESGRecord) (startIndex i : nat) :
  ids_from rest startIndex i = ids_from rest 0 (startIndex + i).
Proof.
  revert i. induction rest as [|r rest IH]; intros i; simpl; [reflexivity|].
  rewrite IH. rewrite (id_of_position r startIndex i 0 (startIndex + i)) by lia.
  do 2 f_equal. lia.
Qed.

Lemma ids_from_app (a b : list ESGRecord) (startIndex i : nat) :
  ids_from (a ++ b) startIndex i
  = ids_from a startIndex i ++ ids_from b startIndex (i + length a).
Proof.
  revert i. induction a as [|r a IH]; intros i; simpl.
  - now rewrite Nat.add_0_r.
  - rewrite IH. do 3 f_equal. lia.
Qed.

Lemma added_ids_app (l1 l2 : list Call) :
  added_ids (l1 ++ l2) = added_ids l1 ++ added_ids l2.
Proof. unfold added_ids. apply List.flat_map_app. Qed.

Lemma ids_after_split (data : list ESGRecord) (batchSize i : nat) :
  ids_after data i
  = ids_from (slice i (i + batchSize) data) i 0
    ++ ids_after data (i + batchSize).
Proof.
  unfold ids_after, slice.
  replace (i + batchSize - i)%nat with batchSize by lia.
  rewrite <- (firstn_skipn batchSize (skipn i data)) at 1.
  rewrite ids_from_app, (ids_from_shift _ i 0), Nat.add_0_r.
  f_equal. change (@skipn) with (@drop). rewrite drop_drop.
  destruct (Nat.le_gt_cases (length data) (i + batchSize)) as [Hge|Hlt].
  - rewrite drop_ge by exact Hge. reflexivity.
  - f_equal. change (@firstn) with (@take).
    rewrite length_take, length_drop. lia.
Qed.

Lemma skipn_split_slice {A} (data : list A) (batchSize i : nat) :
  skipn i data = slice i (i + batchSize) data ++ skipn (i + batchSize) data.
Proof.
  unfold slice. replace (i + batchSize - i)%nat with batchSize by lia.
  rewrite <- (firstn_skipn batchSize (skipn i data)) at 1.
  f_equal. change (@skipn) with (@drop). now rewrite drop_drop.
Qed.

Lemma batch_loop_store (data : list ESGRecord) (batchSize : nat)
  (h : string) (fuel : nat) :
  (0 < batchSize)%nat ->
  forall (i : nat) (st : St SpecStore.Store string)
         (c : gmap string SpecStore.StoredDoc),
    collection (this st) = Some h ->
    remote st !! h = Some c ->
    (length data - i <= fuel)%nat ->
    exists log,
      batch_loop SpecStore.add fuel batchSize data i st
      = (Ok (Some tt),
         mkSt (this st)
              (<[h := SpecStore.put_all (ids_after data i)
                        (map createDocumentText (skipn i data))
                        (map metadata_of (skipn i data)) c]> (remote st))
              log)
      /\ added_ids log = added_ids (calls st) ++ ids_after data i.
Proof.
  intros Hpos. induction fuel as [|fuel IH]; intros i st c Hh Hc Hfuel.
  - assert (Hi : (length data <= i)%nat) by lia.
    exists (calls st). cbn [batch_loop].
    destruct (Nat.ltb_spec i (length data)); [lia|].
    unfold ids_after. rewrite (skipn_all2 data Hi). cbn.
    rewrite app_nil_r, (insert_id _ _ _ Hc). split; [|reflexivity].
    now destruct st.
  - cbn [batch_loop].
    destruct (Nat.ltb_spec i (length data)) as [Hlt|Hge].
    + unfold mbind, M_bind, bind.
      rewrite (processBatch_store _ _ _ h c Hh Hc).
      set (c1 := SpecStore.put_all
                   (ids_from (slice i (i + batchSize) data) i 0)
                   (map createDocumentText (slice i (i + batchSize) data))
                   (map metadata_of (slice i (i + batchSize) data)) c).
      set (st1 := mkSt (this st) (<[h := c1]> (remote st))
                       (calls st
                        ++ [CallAdd (ids_from (slice i (i + batchSize) data)
                                              i 0)])).
      destruct (IH (i + batchSize)%nat st1 c1) as (log & Hrun & Hlog).
      * exact Hh.
      * apply lookup_insert_eq.
      * lia.
      * exists log. rewrite Hrun. subst st1. cbn [this remote calls] in *.
        rewrite insert_insert_eq. split.
        -- do 3 f_equal. subst c1.
           rewrite (ids_after_split data batchSize i).
           rewrite (skipn_split_slice data batchSize i).
           rewrite !map_app. symmetry.
           apply put_all_app; now rewrite length_map, length_ids_from.
        -- rewrite Hlog, added_ids_app. cbn [added_ids flat_map].
           rewrite app_nil_r, <- app_assoc.
           now rewrite (ids_after_split data batchSize i).
    + exists (calls st). unfold ret.
      unfold ids_after. rewrite (skipn_all2 data Hge). cbn.
      rewrite app_nil_r, (insert_id _ _ _ Hc). split; [|reflexivity].
      now destruct st.
Qed.

End StoreIngestion.

Section StoreIngestionTheorems.
Import ChromaManager.
Context {RT : Runtime}.

(** C5: for every batch size of at least one, ingesting the records in
    batches hands the store the same ids, in the same order, as ingesting
    them in a single batch, each record under the id of its position in
    the whole input, and leaves the same collection behind, hence the
    same document count. *)
Theorem addRecords_batch_size_irrelevant
  (data : list ESGRecord) (batchSize : nat)
  (st : St SpecStore.Store string) (h : string)
  (c : gmap string SpecStore.StoredDoc) :
  (0 < batchSize)%nat ->
  isReady (this st) = true ->
  collection (this st) = Some h ->
  remote st !! h = Some c ->
  let batched := addRecords SpecStore.add batchSize data st in
  let single := processBatch SpecStore.add data 0 st in
  fst batched = Ok (Some tt)
  /\ fst single = Ok tt
  /\ added_ids (calls (snd batched))
     = added_ids (calls st) ++ ids_from data 0 0
  /\ added_ids (calls (snd batched)) = added_ids (calls (snd single))
  /\ remote (snd batched) = remote (snd single)
  /\ SpecStore.count h (remote (snd batched))
     = SpecStore.count h (remote (snd single)).
Proof.
  intros Hpos Hready Hh Hc batched single.
  destruct (batch_loop_store data batchSize h (length data) Hpos 0 st c
              Hh Hc) as (log & Hrun & Hlog); [lia|].
  assert (Hb : batched
               = (Ok (Some tt),
                  mkSt (this st)
                       (<[h := SpecStore.put_all (ids_from data 0 0)
                                 (map createDocumentText data)
                                 (map metadata_of data) c]> (remote st))
                       log)).
  { subst batched.
    unfold addRecords, mbind, M_bind, bind, get_this, try_catch.
    rewrite Hready. cbn [negb]. rewrite Hrun. reflexivity. }
  assert (Hs : single = _) by apply (processBatch_store _ _ _ h c Hh Hc).
  rewrite Hb, Hs. cbn [fst snd this remote calls].
  assert (Hids : added_ids log = added_ids (calls st) ++ ids_from data 0 0)
    by exact Hlog.
  repeat split; try assumption.
  rewrite Hids, added_ids_app. cbn. now rewrite app_nil_r.
Qed.

(** C2: an id is "esg_", the Ticker (or "unknown" when the Ticker is
    absent), "_", and the Date or, when the Date is absent, the batch
    start index plus the position in the batch; two records with the same
    Ticker and the same Date get the same id wherever they stand, and
    ingesting the second after the first leaves one document under that
    id: the count of the collection does not grow, and is one when the
    collection was empty. *)
Theorem processBatch_same_record_one_document
  (r1 r2 : ESGRecord) (s1 i1 s2 i2 : nat)
  (st : St SpecStore.Store string) (h : string)
  (c : gmap string SpecStore.StoredDoc) :
  prop r1 "Ticker" = prop r2 "Ticker" ->
  prop r1 "Date" = prop r2 "Date" ->
  truthy (prop r1 "Date") = true ->
  collection (this st) = Some h ->
  remote st !! h = Some c ->
  let once := processBatch SpecStore.add [r1] s1 st in
  let twice := processBatch SpecStore.add [r2] s2 (snd once) in
  (forall (record : ESGRecord) (startIndex i : nat),
      id_of record startIndex i
      = "esg_"
        +:+ (if truthy (prop record "Ticker")
             then to_string (prop record "Ticker") else "unknown")
        +:+ "_"
        +:+ (if truthy (prop record "Date")
             then to_string (prop record "Date")
             else number_to_string
                    (inject_Z (Z.of_nat (startIndex + i)))))
  /\ id_of r1 s1 i1 = id_of r2 s2 i2
  /\ fst once = Ok tt
  /\ fst twice = Ok tt
  /\ remote (snd twice) !! h
     = Some (<[id_of r2 s2 0 :=
                 SpecStore.mkDoc (createDocumentText r2) (metadata_of r2)]> c)
  /\ SpecStore.count h (remote (snd twice))
     = SpecStore.count h (remote (snd once))
  /\ (c = ∅ -> SpecStore.count h (remote (snd twice)) = 1%nat).
Proof.
  intros Ht Hd Htruthy Hh Hc once twice.
  assert (Ho : once = _) by apply (processBatch_store [r1] s1 st h c Hh Hc).
  assert (Hc1 : remote (snd once) !! h
                = Some (<[id_of r1 s1 0 :=
                            SpecStore.mkDoc (createDocumentText r1)
                                            (metadata_of r1)]> c)).
  { rewrite Ho. cbn. apply lookup_insert_eq. }
  assert (Hh1 : collection (this (snd once)) = Some h) by now rewrite Ho.
  assert (Htw : twice = _)
    by apply (processBatch_store [r2] s2 (snd once) h _ Hh1 Hc1).
  assert (Hid : id_of r1 s1 0 = id_of r2 s2 0) by now apply id_of_dated.
  split; [exact id_of_parts|].
  split; [now apply id_of_dated|].
  split; [now rewrite Ho|]. split; [now rewrite Htw|].
  assert (Hfinal : remote (snd twice) !! h
                   = Some (<[id_of r2 s2 0 :=
                               SpecStore.mkDoc (createDocumentText r2)
                                               (metadata_of r2)]> c)).
  { rewrite Htw. cbn [snd remote]. rewrite lookup_insert_eq.
    cbn [SpecStore.put_all ids_from map]. rewrite Hid.
    now rewrite insert_insert_eq. }
  split; [exact Hfinal|].
  unfold SpecStore.count. rewrite Hfinal, Hc1, Hid.
  split.
  - destruct (c !! id_of r2 s2 0) as [d|] eqn:E.
    + rewrite !map_size_insert_Some; eauto.
    + now rewrite !map_size_insert_None.
  - intros ->. rewrite insert_empty. apply map_size_singleton.
Qed.

End StoreIngestionTheorems.

(** ** Retrieval *)

Section RetrievalProperties.
Import ChromaManager.
Context {RT : Runtime}.




End RetrievalProperties.

(** ** Trend grouping *)

Section GroupingProperties.
Import ChromaManager.
Context {RT : Runtime}.

Lemma last_keyed_split (k : string) (ms : list Metadata) (m : Metadata) :
  last_keyed k ms = Some m ->
  exists earlier later,
    ms = earlier ++ m :: later
    /\ trend_key m = k
    /\ (forall m', In m' later -> trend_key m' <> k).
Proof.
  induction ms as [|x ms IH]; cbn [last_keyed]; [discriminate|].
  destruct (last_keyed k ms) as [y|] eqn:E.
  - intros [= ->]. destruct (IH eq_refl) as (earlier & later & -> & Hk & Hl).
    exists (x :: earlier), later. repeat split; assumption.
  - destruct (String.eqb_spec (trend_key x) k) as [Hk|Hk]; [|discriminate].
    intros [= ->]. exists [], ms. repeat split; [assumption|].
    intros m' Hin Hm'. clear IH.
    induction ms as [|z ms IHms]; [destruct Hin|].
    cbn [last_keyed] in E.
    destruct (last_keyed k ms); [discriminate|].
    destruct (String.eqb_spec (trend_key z) k); [discriminate|].
    destruct Hin as [->|Hin]; [contradiction|]. now apply IHms.
Qed.

Lemma last_keyed_none (k : string) (ms : list Metadata) (m : Metadata) :
  last_keyed k ms = None -> In m ms -> trend_key m <> k.
Proof.
  induction ms as [|x ms IH]; cbn [last_keyed]; [intros _ []|].
  destruct (last_keyed k ms); [discriminate|].
  destruct (String.eqb_spec (trend_key x) k); [discriminate|].
  intros _ [->|Hin]; [assumption|]. now apply IH.
Qed.

Lemma group_trends_get (ms : list Metadata) (acc : Obj.t TrendEntry) :
  exists trends,
    group_trends (map Some ms) acc = Ok trends
    /\ (forall k,
           Obj.get k trends
           = match last_keyed k ms with
             | Some m => Some (entry_of m)
             | None => Obj.get k acc
             end)
    /\ (List.NoDup (Obj.keys acc) -> List.NoDup (Obj.keys trends)).
Proof.
  revert acc. induction ms as [|m ms IH]; intros acc; cbn [map group_trends].
  - exists acc. repeat split; auto.
  - destruct (IH (Obj.set (trend_key m) (entry_of m) acc))
      as (trends & Hrun & Hget & Hnd).
    exists trends. split; [exact Hrun|]. split.
    + intros k. rewrite Hget. cbn [last_keyed].
      destruct (last_keyed k ms); [reflexivity|].
      destruct (String.eqb_spec (trend_key m) k) as [<-|Hne].
      * apply Obj_get_set_eq.
      * apply Obj_get_set_ne. congruence.
    + intros Hacc. apply Hnd. now apply Obj_set_keys_NoDup.
Qed.

Lemma Obj_get_of_In {V} (o : Obj.t V) (k : string) (v : V) :
  List.NoDup (Obj.keys o) -> In (k, v) o -> Obj.get k o = Some v.
Proof.
  induction o as [|[k' v'] o IH]; cbn; [intros _ []|].
  intros Hnd [Heq|Hin].
  - injection Heq as -> ->. now rewrite String.eqb_refl.
  - inversion Hnd as [|? ? Hnotin Hnd']; subst.
    destruct (String.eqb_spec k k') as [->|Hne]; [|now apply IH].
    exfalso. apply Hnotin. apply List.in_map_iff. now exists (k', v).
Qed.

Lemma entry_key (m : Metadata) :
  to_string (company (entry_of m)) +:+ "_" +:+ to_string (date (entry_of m))
  = trend_key m.
Proof. reflexivity. Qed.

Lemma Obj_In_of_get {V} (o : Obj.t V) (k : string) (v : V) :
  Obj.get k o = Some v -> In (k, v) o.
Proof.
  induction o as [|[k' v'] o IH]; cbn [Obj.get]; [discriminate|].
  destruct (String.eqb_spec k k') as [->|Hne].
  - intros [= ->]. now left.
  - intros Hget. right. now apply IH.
Qed.

(** C10: when the store answers with metadata objects, getESGTrends
    returns at most one entry for a company and date; each entry is built
    from a record after which no record of the same company and date
    stands in the store's answer, so the last such record gives the
    entry its scores; and the key of every record is the key of some
    entry. *)
Theorem getESGTrends_one_entry_per_pair {R H : Type}
  (collection_get :
     H -> Where -> R -> outcome (list (option Metadata)) * R)
  (filters : option Where) (st : St R H) (h : H)
  (ms : list Metadata) (r' : R) :
  collection (this st) = Some h ->
  collection_get h (default WAll filters) (remote st)
  = (Ok (map Some ms), r') ->
  exists entries,
    getESGTrends collection_get filters st
    = (Ok entries, mkSt (this st) r' (calls st ++ [CallGetDocs]))
    /\ (forall i j e1 e2,
           entries !! i = Some e1 -> entries !! j = Some e2 ->
           company e1 = company e2 -> date e1 = date e2 -> i = j)
    /\ (forall e,
           In e entries ->
           exists earlier m later,
             ms = earlier ++ m :: later
             /\ e = entry_of m
             /\ scores e = scores (entry_of m)
             /\ (forall m', In m' later ->
                   ~ (prop m' "company" = company e
                      /\ prop m' "date" = date e)))
    /\ (forall m,
           In m ms ->
           exists e,
             In e entries
             /\ to_string (company e) +:+ "_" +:+ to_string (date e)
                = trend_key m).
Proof.
  intros Hh Hget.
  destruct (group_trends_get ms Obj.empty) as (trends & Hrun & Hlook & Hnd).
  specialize (Hnd (List.NoDup_nil _)).
  assert (Hentry : forall k e, In (k, e) trends ->
                     exists m, last_keyed k ms = Some m /\ e = entry_of m).
  { intros k e Hin. pose proof (Obj_get_of_In _ _ _ Hnd Hin) as Hk.
    rewrite Hlook in Hk. destruct (last_keyed k ms) as [m|]; [|discriminate].
    exists m. split; [reflexivity|]. congruence. }
  exists (Obj.values trends). split; [|split; [|split]].
  - unfold getESGTrends, mbind, M_bind, bind, get_this, remote_call, lift, ret.
    rewrite Hh, Hget. cbn [this remote calls]. now rewrite Hrun.
  - intros i j e1 e2 Hi Hj Hc Hd.
    unfold Obj.values in Hi, Hj.
    apply list_lookup_fmap_Some in Hi as ([k1 e1'] & He1 & Hi).
    apply list_lookup_fmap_Some in Hj as ([k2 e2'] & He2 & Hj).
    cbn in He1, He2. subst e1' e2'.
    assert (Hin1 : In (k1, e1) trends)
      by (apply list_elem_of_In; eapply list_elem_of_lookup_2; exact Hi).
    assert (Hin2 : In (k2, e2) trends)
      by (apply list_elem_of_In; eapply list_elem_of_lookup_2; exact Hj).
    destruct (Hentry _ _ Hin1) as (m1 & Hl1 & ->).
    destruct (Hentry _ _ Hin2) as (m2 & Hl2 & ->).
    apply last_keyed_split in Hl1 as (_ & _ & _ & Hk1 & _).
    apply last_keyed_split in Hl2 as (_ & _ & _ & Hk2 & _).
    assert (Hk : k1 = k2).
    { rewrite <- Hk1, <- Hk2, <- !entry_key. now rewrite Hc, Hd. }
    subst k2.
    eapply (NoDup_lookup (Obj.keys trends) i j k1
              (proj2 (NoDup_ListNoDup _) Hnd));
      unfold Obj.keys; rewrite list_lookup_fmap.
    + rewrite Hi. reflexivity.
    + rewrite Hj. cbn. now rewrite Hk.
  - intros e Hin. unfold Obj.values in Hin.
    apply List.in_map_iff in Hin as ([k e'] & He & Hin). cbn in He. subst e'.
    destruct (Hentry _ _ Hin) as (m & Hl & ->).
    apply last_keyed_split in Hl as (earlier & later & -> & Hk & Hlater).
    exists earlier, m, later. repeat split.
    intros m' Hm' [Hc Hd]. apply (Hlater m' Hm').
    rewrite <- Hk, <- (entry_key m). unfold trend_key. now rewrite Hc, Hd.
  - intros m Hin.
    destruct (last_keyed (trend_key m) ms) as [m'|] eqn:E.
    + exists (entry_of m'). split.
      * unfold Obj.values. apply List.in_map_iff.
        exists (trend_key m, entry_of m'). split; [reflexivity|].
        apply Obj_In_of_get. now rewrite Hlook, E.
      * rewrite entry_key.
        now apply last_keyed_split in E as (_ & _ & _ & Hk & _).
    + exfalso. now apply (last_keyed_none _ _ m E Hin).
Qed.

End GroupingProperties.

(** * The properties at concrete inputs *)

Section AtExamples.
Import ChromaManager.
Import Examples.
Import ESGAnalyzerTool.
Existing Instance Examples.runtime.


(** Apple's 2020 row ingested twice, from two positions of two runs,
    leaves one document. *)
Lemma processBatch_same_record_one_document_witness :
  prop apple_2020 "Ticker" = prop apple_2020_again "Ticker"
  /\ prop apple_2020 "Date" = prop apple_2020_again "Date"
  /\ truthy (prop apple_2020 "Date") = true
  /\ id_of apple_2020 0 0 = id_of apple_2020_again 1000 7
  /\ SpecStore.count "esg_documents"
       (remote (snd (processBatch SpecStore.add [apple_2020_again] 1000
                       (snd (processBatch SpecStore.add [apple_2020] 0
                               ready)))))
     = 1%nat.
Proof.
  split; [reflexivity|]. split; [reflexivity|]. split; [reflexivity|].
  destruct (processBatch_same_record_one_document
              apple_2020 apple_2020_again 0 0 1000 7 ready "esg_documents" ∅
              eq_refl eq_refl eq_refl eq_refl eq_refl)
    as (_ & Hid & _ & _ & _ & _ & Hone).
  split; [exact Hid|]. exact (Hone eq_refl).
Defined.

(** The collection exists but the listing does not show it: CREATE is
    refused, one GET attaches. *)
Lemma ensureCollection_create_then_get_witness :
  client (this fresh) = Some "http://localhost:8000"
  /\ listCollections stale_client (remote fresh) = (Ok [], empty_store)
  /\ List.find (is_named (collectionName (this fresh))) [] = None
  /\ ensureCollection stale_client fresh
     = (Ok tt,
        mkSt (set_collection (Some "esg_documents") (this fresh))
             empty_store
             [CallList; CallCreate "esg_documents";
              CallGet "esg_documents"]).
Proof.
  split; [reflexivity|]. split; [reflexivity|]. split; [reflexivity|].
  destruct (ensureCollection_create_then_get stale_client fresh
              "http://localhost:8000" [] empty_store
              eq_refl eq_refl eq_refl) as [Hrun _].
  rewrite Hrun. reflexivity.
Defined.

(** A batch of two rows. *)
Lemma processBatch_arrays_aligned_witness :
  collection (this ready) = Some "esg_documents"
  /\ exists req,
       processBatch SpecStore.add [apple_2020; anonymous] 0 ready
       = (let (o, r) := SpecStore.add "esg_documents" req (remote ready) in
          (o, mkSt (this ready) r
                   (calls ready ++ [CallAdd (AddRequest.ids req)])))
       /\ length (AddRequest.documents req) = 2%nat
       /\ length (AddRequest.metadatas req) = 2%nat
       /\ length (AddRequest.ids req) = 2%nat
       /\ AddRequest.ids req !! 1%nat = Some (id_of anonymous 0 1).
Proof.
  split; [reflexivity|].
  destruct (processBatch_arrays_aligned SpecStore.add
              [apple_2020; anonymous] 0 ready "esg_documents" eq_refl)
    as (req & Hrun & Hd & Hm & Hi & Hat & _).
  exists req. repeat split; try assumption.
  now destruct (Hat 1%nat anonymous eq_refl) as (_ & _ & Hid).
Defined.

(** Four rows in batches of two and in one batch. *)
Lemma addRecords_batch_size_irrelevant_witness :
  (0 < 2)%nat
  /\ isReady (this ready) = true
  /\ collection (this ready) = Some "esg_documents"
  /\ remote ready !! "esg_documents" = Some ∅
  /\ remote (snd (addRecords SpecStore.add 2
                    [apple_2020; anonymous; apple_2020_again; unrated]
                    ready))
     = remote (snd (processBatch SpecStore.add
                      [apple_2020; anonymous; apple_2020_again; unrated]
                      0 ready)).
Proof.
  split; [lia|]. split; [reflexivity|]. split; [reflexivity|].
  split; [reflexivity|].
  destruct (addRecords_batch_size_irrelevant
              [apple_2020; anonymous; apple_2020_again; unrated] 2
              ready "esg_documents" ∅ ltac:(lia) eq_refl eq_refl eq_refl)
    as (_ & _ & _ & _ & Hsame & _).
  exact Hsame.
Defined.

(** Values 50, 55, 60 of one metric. *)
Lemma calculateTrends_metric_witness :
  In "m" ["m"]
  /\ metric_values [one_metric "m" 50; one_metric "m" 55; one_metric "m" 60]
                   "m"
     = numbers (50%Q :: [55%Q] ++ [60%Q])
  /\ exists t,
       Obj.get "m" (calculateTrends
                      [one_metric "m" 50; one_metric "m" 55;
                       one_metric "m" 60] ["m"]) = Some t
       /\ change t = "10.00"
       /\ changePercent t = "20.00"
       /\ average t = "55.00"
       /\ trend t = "yükseliş".
Proof.
  split; [simpl; auto|]. split; [reflexivity|].
  destruct (calculateTrends_metric
              [one_metric "m" 50; one_metric "m" 55; one_metric "m" 60]
              ["m"] "m" 50 60 [55%Q] ltac:(simpl; auto) eq_refl)
    as [(t & Hget & _ & Hchange & Hpercent & _ & Haverage & Hup & _) _].
  exists t. split; [exact Hget|].
  split; [rewrite Hchange; vm_compute; reflexivity|].
  split; [rewrite Hpercent; vm_compute; reflexivity|].
  split; [rewrite Haverage; vm_compute; reflexivity|].
  apply Hup. vm_compute. reflexivity.
Defined.

(** The record of the specification's example after an earlier one. *)
Lemma assessRisks_thresholds_witness :
  prop example_record "environment_score" = JNum (Fin 30)
  /\ prop example_record "social_score" = JNum (Fin 80)
  /\ prop example_record "governance_score" = JNum (Fin 80)
  /\ (In env_risk (risks (assessRisks ([[]] ++ [example_record])))
      <-> (30 < 40)%Q)
  /\ (In soc_risk (risks (assessRisks ([[]] ++ [example_record])))
      <-> (80 < 40)%Q).
Proof.
  split; [reflexivity|]. split; [reflexivity|]. split; [reflexivity|].
  destruct (assessRisks_thresholds [[]] example_record 30 80 80
              eq_refl eq_refl eq_refl) as (He & Hs & _).
  split; assumption.
Defined.

(** Scores 40, 50, 90. *)
Lemma analyzeSectorMetrics_mean_and_ranking_witness :
  map metadata [MarketAnalyzerTool.scored 40; MarketAnalyzerTool.scored 50;
                MarketAnalyzerTool.scored 90]
  = map Some [[("environment_score", JNum (Fin 40))];
              [("environment_score", JNum (Fin 50))];
              [("environment_score", JNum (Fin 90))]]
  /\ exists a,
       MarketAnalyzerTool.analyzeSectorMetrics
         [MarketAnalyzerTool.scored 40; MarketAnalyzerTool.scored 50;
          MarketAnalyzerTool.scored 90] "environment_score" = Ok a
       /\ MarketAnalyzerTool.totalCompanies a = 3%nat
       /\ MarketAnalyzerTool.averageScore a = "60.00".
Proof.
  split; [reflexivity|].
  destruct (analyzeSectorMetrics_mean_and_ranking
              [MarketAnalyzerTool.scored 40; MarketAnalyzerTool.scored 50;
               MarketAnalyzerTool.scored 90] "environment_score"
              [[("environment_score", JNum (Fin 40))];
               [("environment_score", JNum (Fin 50))];
               [("environment_score", JNum (Fin 90))]] eq_refl)
    as [(a & Hrun & Hcount & Haverage & _) _].
  exists a. split; [exact Hrun|]. split; [exact Hcount|].
  rewrite Haverage; [vm_compute; reflexivity|vm_compute; discriminate].
Defined.

(** A row without scores but the total. *)
Lemma processBatch_score_defaults_witness :
  [apple_2020] !! 0%nat = Some apple_2020
  /\ In "social_score" score_fields
  /\ exists md,
       AddRequest.metadatas (batch_request [apple_2020] 0) !! 0%nat = Some md
       /\ prop md "social_score" = JNum (Fin 0)
       /\ prop md "record_type" = JStr "esg_data".
Proof.
  split; [reflexivity|]. split; [simpl; auto 10|].
  destruct (processBatch_score_defaults [apple_2020] 0 0 apple_2020
              "social_score" eq_refl ltac:(simpl; auto 10))
    as (md & Hmd & _ & Hmissing & _ & _ & _ & Htype).
  exists md. repeat split; try assumption.
  apply Hmissing. reflexivity.
Defined.

(** Three stored records, two of them for Apple in 2020. *)
Lemma getESGTrends_one_entry_per_pair_witness :
  collection (this attached_to_unit) = Some "esg_documents"
  /\ holding "esg_documents" (default WAll None) (remote attached_to_unit)
     = (Ok (map Some stored), tt)
  /\ exists entries,
       fst (getESGTrends holding None attached_to_unit) = Ok entries
       /\ (forall i j e1 e2,
              entries !! i = Some e1 -> entries !! j = Some e2 ->
              company e1 = company e2 -> date e1 = date e2 -> i = j).
Proof.
  split; [reflexivity|]. split; [reflexivity|].
  destruct (getESGTrends_one_entry_per_pair holding None attached_to_unit
              "esg_documents" stored tt eq_refl eq_refl)
    as (entries & Hrun & Hone & _).
  exists entries. split; [now rewrite Hrun|exact Hone].
Defined.

(** C2 as stated fails for a record without a Date: the row [anonymous]
    has the same Ticker and the same Date each time it is ingested, both
    absent, yet its id is made of its position, so that ingesting it
    twice, in two runs or in one batch, leaves two documents. *)
Lemma undated_record_twice_two_documents :
  let once := processBatch SpecStore.add [anonymous] 0 ready in
  let twice := processBatch SpecStore.add [anonymous] 1000 (snd once) in
  let together := processBatch SpecStore.add [anonymous; anonymous] 0 ready in
  prop anonymous "Ticker" = JUndefined
  /\ prop anonymous "Date" = JUndefined
  /\ id_of anonymous 0 0 = "esg_unknown_0"
  /\ id_of anonymous 1000 0 = "esg_unknown_1000"
  /\ id_of anonymous 0 0 <> id_of anonymous 1000 0
  /\ fst once = Ok tt
  /\ fst twice = Ok tt
  /\ SpecStore.count "esg_documents" (remote (snd once)) = 1%nat
  /\ SpecStore.count "esg_documents" (remote (snd twice)) = 2%nat
  /\ AddRequest.ids (batch_request [anonymous; anonymous] 0)
     = ["esg_unknown_0"; "esg_unknown_1"]
  /\ SpecStore.count "esg_documents" (remote (snd together)) = 2%nat.
Proof.
  cbn zeta.
  split; [reflexivity|]. split; [reflexivity|].
  split; [vm_compute; reflexivity|]. split; [vm_compute; reflexivity|].
  split; [vm_compute; discriminate|].
  split; [vm_compute; reflexivity|]. split; [vm_compute; reflexivity|].
  split; [vm_compute; reflexivity|]. split; [vm_compute; reflexivity|].
  split; vm_compute; reflexivity.
Defined.

(** C6 as stated fails: with first value 0 and last value 50 the
    analyzer reports the text "Infinity" as changePercent, which
    parseFloat reads as a number; the field is not undefined. *)
Lemma changePercent_zero_first_is_infinity :
  exists t,
    Obj.get "m" (calculateTrends [one_metric "m" 0; one_metric "m" 50]
                                 ["m"]) = Some t
    /\ changePercent t = "Infinity"
    /\ JStr (changePercent t) <> JUndefined
    /\ changePercent t <> to_string JUndefined
    /\ parseFloat (JStr (changePercent t)) = PInf.
Proof.
  exists {| current := JNum (Fin 50); change := "50.00";
            changePercent := "Infinity"; trend := "yükseliş";
            average := "25.00" |}.
  split; [vm_compute; reflexivity|]. cbn [changePercent].
  split; [reflexivity|]. split; [discriminate|].
  split; [discriminate|]. vm_compute. reflexivity.
Defined.

(** C9 as stated fails: a score cell holding the text "N/A" is written
    to the metadata as it is, neither 0 nor a number. *)
Lemma non_numeric_score_kept :
  exists md,
    AddRequest.metadatas (batch_request [unrated] 0) !! 0%nat = Some md
    /\ prop unrated "total_esg_score" = JStr "N/A"
    /\ prop md "total_esg_score" = JStr "N/A"
    /\ prop md "total_esg_score" <> JNum (Fin 0)
    /\ is_number (prop md "total_esg_score") = false.
Proof.
  eexists. split; [reflexivity|]. repeat split. discriminate.
Defined.

End AtExamples.
